(** * PWM fading blinky (blinky/src/main.c): brightness ramps and channel cycling

    A shallow embedding of [fade_led], [set_led_brightness],
    [turn_off_all_leds] and [main].  The C functions talk to three external
    collaborators (the PWM driver, the device model and the console) and sleep
    between steps; every such call is recorded as an [event], and a C function
    becomes a computation that, started after a given number of driver calls,
    yields its return value, the events it emitted and the new number of
    driver calls.  Format strings are kept character for character as they
    are written in the source. *)

From Stdlib Require Import ZArith List String Bool Lia Sorted.
Import ListNotations.
Open Scope string_scope.
Open Scope list_scope.
Open Scope Z_scope.

(** ** Data *)

(** [struct device]: only the name is read by the program. *)
Record device : Type := { name : string }.

(** [struct pwm_dt_spec] as filled in by [PWM_DT_SPEC_GET]. *)
Record pwm_dt_spec : Type := {
  dev : device;
  channel : Z;
  period : Z;
  flags : Z
}.

(** An argument of a [printk] call after the format string. *)
Inductive printk_arg : Type :=
| ArgInt (z : Z)
| ArgStr (s : string).

(** The calls the program makes to its environment, in program order. *)
Inductive event : Type :=
| EvPrintk (fmt : string) (args : list printk_arg)
| EvDeviceIsReady (d : device) (ready : bool)
| EvPwmSet (spec : pwm_dt_spec) (period_us pulse_us : Z) (ret : Z)
| EvSleep (ms : Z).

(** ** Machine integers *)

(** Value of a 32-bit [unsigned int] / [uint32_t] expression. *)
Definition u32 (z : Z) : Z := z mod 2 ^ 32.

(** Value of a [uint8_t] argument. *)
Definition u8 (z : Z) : Z := z mod 2 ^ 8.

(** ** Computations *)

(** A computation, run after [calls] earlier [pwm_set_dt] calls. *)
Record outcome (A : Type) : Type := {
  value : A;
  events : list event;
  calls : nat
}.
Arguments value {A} _.
Arguments events {A} _.
Arguments calls {A} _.

Definition M (A : Type) : Type := nat -> outcome A.

Definition ret {A : Type} (a : A) : M A :=
  fun c => {| value := a; events := []; calls := c |}.

Definition bind {A B : Type} (m : M A) (k : A -> M B) : M B :=
  fun c =>
    let r := m c in
    let r' := k (value r) (calls r) in
    {| value := value r'; events := events r ++ events r'; calls := calls r' |}.

Notation "x <- m ;; k" := (bind m (fun x => k))
  (at level 61, m at next level, right associativity).
Notation "m ;; k" := (bind m (fun _ => k))
  (at level 61, right associativity).

(** Pulse widths handed to the driver by a list of events. *)
Fixpoint applied_pulses (evs : list event) : list Z :=
  match evs with
  | [] => []
  | EvPwmSet _ _ pw _ :: evs' => pw :: applied_pulses evs'
  | _ :: evs' => applied_pulses evs'
  end.

(** The [pwm_set_dt] calls among a list of events. *)
Definition is_pwm_set (e : event) : bool :=
  match e with EvPwmSet _ _ _ _ => true | _ => false end.

Definition pwm_writes (evs : list event) : list event := filter is_pwm_set evs.

Section Blinky.

(** [#define PWM_PERIOD_US 1000U]: an [unsigned int] constant. *)
Variable PWM_PERIOD_US : Z.
(** [#define FADE_STEPS 100]: an [int] constant. *)
Variable FADE_STEPS : Z.

(** The four device-tree specifications [pwm_led0] .. [pwm_led3]. *)
Variables pwm_led0 pwm_led1 pwm_led2 pwm_led3 : pwm_dt_spec.

(** The environment: [device_is_ready] of the device model, and the return
    code of the [n]-th [pwm_set_dt] call as a function of its arguments. *)
Variable device_ready : device -> bool.
Variable driver : nat -> pwm_dt_spec -> Z -> Z -> Z.

(** [#define FADE_STEP_MS 10] *)
Definition FADE_STEP_MS : Z := 10.

(** [static const struct pwm_dt_spec *pwm_leds[]] *)
Definition pwm_leds : list pwm_dt_spec :=
  [pwm_led0; pwm_led1; pwm_led2; pwm_led3].

(** [#define NUM_LEDS ARRAY_SIZE(pwm_leds)] *)
Definition NUM_LEDS : Z := Z.of_nat (List.length pwm_leds).

(** [pwm_leds[i]] *)
Definition pwm_leds_at (i : Z) : pwm_dt_spec :=
  nth (Z.to_nat i) pwm_leds pwm_led0.

(** *** External calls *)

Definition printk (fmt : string) (args : list printk_arg) : M unit :=
  fun c => {| value := tt; events := [EvPrintk fmt args]; calls := c |}.

Definition k_msleep (ms : Z) : M unit :=
  fun c => {| value := tt; events := [EvSleep ms]; calls := c |}.

Definition device_is_ready (d : device) : M bool :=
  fun c =>
    let r := device_ready d in
    {| value := r; events := [EvDeviceIsReady d r]; calls := c |}.

Definition pwm_set_dt (spec : pwm_dt_spec) (period_us pulse_us : Z) : M Z :=
  fun c =>
    let r := driver c spec period_us pulse_us in
    {| value := r; events := [EvPwmSet spec period_us pulse_us r];
       calls := S c |}.

(** *** [fade_led] *)

(** The [pulse_width] assignment of the loop body: the product is formed in
    [unsigned int], [step] and [FADE_STEPS] being converted to it.  The
    division is that of C only for [FADE_STEPS <> 0]: with [FADE_STEPS = 0]
    the C expression divides by zero, so statements about runs assume
    [1 <= FADE_STEPS]. *)
Definition fade_pulse_width (fade_in : bool) (step : Z) : Z :=
  if fade_in
  then u32 (PWM_PERIOD_US * u32 step) / u32 FADE_STEPS
  else u32 (PWM_PERIOD_US * u32 (FADE_STEPS - step)) / u32 FADE_STEPS.

(** [for (int step = ...; step <= FADE_STEPS; step++)], entered at [step]
    with at most [iters] iterations left.  The counter is an [int] in C: the
    loop is the C loop only for [FADE_STEPS < INT_MAX], where [step++] never
    overflows, so statements about runs assume [FADE_STEPS < 2 ^ 31 - 1]. *)
Fixpoint fade_led_loop (iters : nat) (led_spec : pwm_dt_spec)
    (fade_in : bool) (step : Z) : M unit :=
  match iters with
  | O => ret tt
  | S iters' =>
      if step <=? FADE_STEPS then
        let pulse_width := fade_pulse_width fade_in step in
        r <- pwm_set_dt led_spec PWM_PERIOD_US pulse_width ;;
        if r <? 0 then
          printk "Error setting PWM: %d\n" [ArgInt r]
        else
          k_msleep FADE_STEP_MS ;;
          fade_led_loop iters' led_spec fade_in (step + 1)
      else ret tt
  end.

(** [static void fade_led(const struct pwm_dt_spec *led_spec, bool fade_in)];
    the loop guard holds for exactly the steps [0 .. FADE_STEPS]. *)
Definition fade_led (led_spec : pwm_dt_spec) (fade_in : bool) : M unit :=
  fade_led_loop (Z.to_nat (FADE_STEPS + 1)) led_spec fade_in 0.

(** *** [set_led_brightness] *)

Definition brightness_pulse_width (brightness : Z) : Z :=
  u32 (PWM_PERIOD_US * u32 (u8 brightness)) / 100.

Definition set_led_brightness (led_spec : pwm_dt_spec) (brightness : Z)
    : M unit :=
  let pulse_width := brightness_pulse_width brightness in
  r <- pwm_set_dt led_spec PWM_PERIOD_US pulse_width ;;
  if r <? 0 then printk "Error setting PWM brightness: %d\n" [ArgInt r]
  else ret tt.

(** *** [turn_off_all_leds] *)

Fixpoint turn_off_loop (iters : nat) (i : Z) : M unit :=
  match iters with
  | O => ret tt
  | S iters' =>
      if i <? NUM_LEDS then
        pwm_set_dt (pwm_leds_at i) PWM_PERIOD_US 0 ;;
        turn_off_loop iters' (i + 1)
      else ret tt
  end.

Definition turn_off_all_leds : M unit :=
  turn_off_loop (Z.to_nat NUM_LEDS) 0.

(** *** [main] *)

(** The readiness loop; [Some code] when [main] returns [code] from inside
    the loop, [None] when the loop runs to its end. *)
Fixpoint check_ready_loop (iters : nat) (i : Z) : M (option Z) :=
  match iters with
  | O => ret None
  | S iters' =>
      if i <? NUM_LEDS then
        ready <- device_is_ready (dev (pwm_leds_at i)) ;;
        if negb ready then
          printk "Error: PWM device %s is not ready\n"
                 [ArgStr (name (dev (pwm_leds_at i)))] ;;
          ret (Some (-1))
        else
          printk "PWM LED %d ready\n" [ArgInt i] ;;
          check_ready_loop iters' (i + 1)
      else ret None
  end.

(** One pass through the body of [while (1)]; yields the next
    [current_led]. *)
Definition cycle_body (current_led : Z) : M Z :=
  printk "Fading LED %d\n" [ArgInt current_led] ;;
  fade_led (pwm_leds_at current_led) true ;;
  k_msleep 200 ;;
  fade_led (pwm_leds_at current_led) false ;;
  let current_led' := u32 (current_led + 1) mod NUM_LEDS in
  k_msleep 100 ;;
  ret current_led'.

(** The first [n] passes of [while (1)]. *)
Fixpoint cycle_loop (n : nat) (current_led : Z) : M Z :=
  match n with
  | O => ret current_led
  | S n' =>
      next <- cycle_body current_led ;;
      cycle_loop n' next
  end.

(** [int main(void)], observed for [n] passes of its endless loop.  The value
    is [Some code] when [main] has returned [code], and [None] when it is
    still inside the loop after [n] passes. *)
Definition main (n : nat) : M (option Z) :=
  printk "PWM Fading Blinky Sample for nRF5340 DK\n" [] ;;
  early <- check_ready_loop (Z.to_nat NUM_LEDS) 0 ;;
  match early with
  | Some code => ret (Some code)
  | None =>
      turn_off_all_leds ;;
      cycle_loop n 0 ;;
      ret None
  end.

End Blinky.

(** ** The annotated variant of the program

    The second copy of main.c in the repository has the same [fade_led],
    [set_led_brightness] and [turn_off_all_leds]; its [main] prints more. *)
Module Annotated.

Section Program.

Variable PWM_PERIOD_US : Z.
Variable FADE_STEPS : Z.
Variables pwm_led0 pwm_led1 pwm_led2 pwm_led3 : pwm_dt_spec.
Variable device_ready : device -> bool.
Variable driver : nat -> pwm_dt_spec -> Z -> Z -> Z.

Local Abbreviation NUM_LEDS := (NUM_LEDS pwm_led0 pwm_led1 pwm_led2 pwm_led3).
Local Abbreviation pwm_leds_at :=
  (pwm_leds_at pwm_led0 pwm_led1 pwm_led2 pwm_led3).
Local Abbreviation device_is_ready := (device_is_ready device_ready).
Local Abbreviation fade_led := (fade_led PWM_PERIOD_US FADE_STEPS driver).
Local Abbreviation turn_off_all_leds :=
  (turn_off_all_leds PWM_PERIOD_US pwm_led0 pwm_led1 pwm_led2 pwm_led3 driver).

Fixpoint check_ready_loop (iters : nat) (i : Z) : M (option Z) :=
  match iters with
  | O => ret None
  | S iters' =>
      if i <? NUM_LEDS then
        ready <- device_is_ready (dev (pwm_leds_at i)) ;;
        if negb ready then
          printk "Error: PWM device %s is not ready\n"
                 [ArgStr (name (dev (pwm_leds_at i)))] ;;
          ret (Some (-1))
        else
          printk "PWM LED %d ready (device: %s)\n"
                 [ArgInt i; ArgStr (name (dev (pwm_leds_at i)))] ;;
          check_ready_loop iters' (i + 1)
      else ret None
  end.

Definition cycle_body (current_led : Z) : M Z :=
  printk "Fading LED %d (User LED %d on board)\n"
         [ArgInt current_led; ArgInt (current_led + 1)] ;;
  fade_led (pwm_leds_at current_led) true ;;
  k_msleep 200 ;;
  fade_led (pwm_leds_at current_led) false ;;
  let current_led' := u32 (current_led + 1) mod NUM_LEDS in
  k_msleep 100 ;;
  ret current_led'.

Fixpoint cycle_loop (n : nat) (current_led : Z) : M Z :=
  match n with
  | O => ret current_led
  | S n' =>
      next <- cycle_body current_led ;;
      cycle_loop n' next
  end.

(** [int main(void)] of the annotated copy, observed for [n] passes of its
    endless loop. *)
Definition main (n : nat) : M (option Z) :=
  printk "PWM Fading Blinky Sample for nRF5340 DK\n" [] ;;
  printk "This sample demonstrates smooth LED fading using PWM\n" [] ;;
  early <- check_ready_loop (Z.to_nat NUM_LEDS) 0 ;;
  match early with
  | Some code => ret (Some code)
  | None =>
      turn_off_all_leds ;;
      printk "All LEDs initialized to OFF state\n" [] ;;
      cycle_loop n 0 ;;
      ret None
  end.

End Program.

End Annotated.

(** ** Vocabulary for statements about whole runs *)

(** Time spent in [k_msleep], in milliseconds. *)
Fixpoint total_sleep (evs : list event) : Z :=
  match evs with
  | [] => 0
  | EvSleep ms :: evs' => ms + total_sleep evs'
  | _ :: evs' => total_sleep evs'
  end.

(** Number of [pwm_set_dt] calls the driver accepted. *)
Fixpoint accepted_writes (evs : list event) : nat :=
  match evs with
  | [] => O
  | EvPwmSet _ _ _ r :: evs' =>
      if r <? 0 then accepted_writes evs' else S (accepted_writes evs')
  | _ :: evs' => accepted_writes evs'
  end.

(** What the hardware sees: everything but the console output. *)
Definition is_console (e : event) : bool :=
  match e with EvPrintk _ _ => true | _ => false end.

Definition hardware_events (evs : list event) : list event :=
  filter (fun e => negb (is_console e)) evs.

(** Two runs that agree on their value, on the number of driver calls and on
    everything the hardware sees. *)
Definition hardware_equiv {A : Type} (r r' : outcome A) : Prop :=
  value r = value r' /\ calls r = calls r' /\
  hardware_events (events r) = hardware_events (events r').

(** A [pwm_set_dt] call, if [e] is one, addresses [led] with [period_us]. *)
Definition writes_to (led : pwm_dt_spec) (period_us : Z) (e : event) : Prop :=
  match e with
  | EvPwmSet spec p _ _ => spec = led /\ p = period_us
  | _ => True
  end.

(** ** Vocabulary for statements about ramps *)

(** The [n] consecutive step indices starting at [a]. *)
Fixpoint zrange (a : Z) (n : nat) : list Z :=
  match n with
  | O => []
  | S n' => a :: zrange (a + 1) n'
  end.

(** What [m] successful iterations of the ramp loop emit when the loop is
    entered at [step] after [c] driver calls: a write, then the step delay. *)
Fixpoint ok_steps (PWM_PERIOD_US FADE_STEPS : Z)
    (driver : nat -> pwm_dt_spec -> Z -> Z -> Z)
    (led_spec : pwm_dt_spec) (fade_in : bool)
    (m : nat) (step : Z) (c : nat) : list event :=
  match m with
  | O => []
  | S m' =>
      let pw := fade_pulse_width PWM_PERIOD_US FADE_STEPS fade_in step in
      EvPwmSet led_spec PWM_PERIOD_US pw (driver c led_spec PWM_PERIOD_US pw)
      :: EvSleep FADE_STEP_MS
      :: ok_steps PWM_PERIOD_US FADE_STEPS driver led_spec fade_in
                  m' (step + 1) (S c)
  end.

(** The return code of the write a ramp makes at [step] when [c] driver calls
    came before it. *)
Definition step_ret (PWM_PERIOD_US FADE_STEPS : Z)
    (driver : nat -> pwm_dt_spec -> Z -> Z -> Z)
    (led_spec : pwm_dt_spec) (fade_in : bool) (step : Z) (c : nat) : Z :=
  driver c led_spec PWM_PERIOD_US
         (fade_pulse_width PWM_PERIOD_US FADE_STEPS fade_in step).

(** Index, counted from [i], of the first LED whose device is not ready. *)
Fixpoint first_not_ready (device_ready : device -> bool)
    (leds : list pwm_dt_spec) (i : nat) : option nat :=
  match leds with
  | [] => None
  | l :: leds' =>
      if device_ready (dev l) then first_not_ready device_ready leds' (S i)
      else Some i
  end.

(** What the readiness loop emits for the LEDs [i ..] of [leds] that it finds
    ready. *)
Fixpoint ready_events (leds : list pwm_dt_spec) (i : nat) : list event :=
  match leds with
  | [] => []
  | l :: leds' =>
      EvDeviceIsReady (dev l) true
      :: EvPrintk "PWM LED %d ready\n" [ArgInt (Z.of_nat i)]
      :: ready_events leds' (S i)
  end.

(** What [turn_off_all_leds] emits for [leds] when [c] driver calls came
    before it, whatever the driver answers. *)
Fixpoint zeroing_events (PWM_PERIOD_US : Z)
    (driver : nat -> pwm_dt_spec -> Z -> Z -> Z)
    (leds : list pwm_dt_spec) (c : nat) : list event :=
  match leds with
  | [] => []
  | l :: leds' =>
      EvPwmSet l PWM_PERIOD_US 0 (driver c l PWM_PERIOD_US 0)
      :: zeroing_events PWM_PERIOD_US driver leds' (S c)
  end.

(** ** The configuration of the sample

    The constants of main.c and the four LEDs of the nRF5340 DK overlay
    ([pwms = <&pwmN 0 PWM_MSEC(1) PWM_POLARITY_INVERTED>]); the devices are
    named after their node labels. *)
Module Nrf5340dk.

Definition PWM_PERIOD_US : Z := 1000.
Definition FADE_STEPS : Z := 100.

Definition pwm_led (label : string) : pwm_dt_spec :=
  {| dev := {| name := label |}; channel := 0; period := 1000000; flags := 1 |}.

Definition pwm_led0 : pwm_dt_spec := pwm_led "pwm0".
Definition pwm_led1 : pwm_dt_spec := pwm_led "pwm1".
Definition pwm_led2 : pwm_dt_spec := pwm_led "pwm2".
Definition pwm_led3 : pwm_dt_spec := pwm_led "pwm3".

(** Every device is ready. *)
Definition all_ready : device -> bool := fun _ => true.

(** A driver that accepts every write. *)
Definition working : nat -> pwm_dt_spec -> Z -> Z -> Z := fun _ _ _ _ => 0.

(** A driver that rejects its [n]-th call with [-EIO] and accepts the
    others. *)
Definition failing_at (n : nat) : nat -> pwm_dt_spec -> Z -> Z -> Z :=
  fun c _ _ _ => if Nat.eqb c n then -5 else 0.

(** A driver that rejects every write with [-EIO]. *)
Definition dead : nat -> pwm_dt_spec -> Z -> Z -> Z := fun _ _ _ _ => -5.

End Nrf5340dk.

(** The constants are representable in their C types ([unsigned int] and
    [int]) and the loop counter [step] never overflows. *)
Definition config_in_range (PWM_PERIOD_US FADE_STEPS : Z) : Prop :=
  1 <= PWM_PERIOD_US < 2 ^ 32 /\ 1 <= FADE_STEPS < 2 ^ 31 - 1.

(** ** Machine arithmetic *)

Lemma u32_small (z : Z) : 0 <= z < 2 ^ 32 -> u32 z = z.
Proof. intros H. unfold u32. apply Z.mod_small. exact H. Qed.

Lemma u32_range (z : Z) : 0 <= u32 z < 2 ^ 32.
Proof. unfold u32. apply Z.mod_pos_bound. lia. Qed.

Lemma u32_le (z : Z) : 0 <= z -> u32 z <= z.
Proof. intros H. unfold u32. apply Z.mod_le; lia. Qed.

Section PulseWidth.

Variables P N : Z.

Local Abbreviation pulse := (fade_pulse_width P N).

(** On the steps of the loop the conversions of [step], [FADE_STEPS - step]
    and [FADE_STEPS] to [unsigned int] keep their values. *)
Lemma fade_pulse_width_steps (fade_in : bool) (s : Z) :
  1 <= N < 2 ^ 31 - 1 -> 0 <= s <= N ->
  pulse fade_in s =
  u32 (P * (if fade_in then s else N - s)) / N.
Proof.
  intros HN Hs. unfold fade_pulse_width.
  assert (2 ^ 31 < 2 ^ 32) by (now compute).
  rewrite (u32_small N) by lia.
  destruct fade_in.
  - rewrite (u32_small s) by lia. reflexivity.
  - rewrite (u32_small (N - s)) by lia. reflexivity.
Qed.

(** Without wrap-around of the product the pulse width is the truncated
    linear interpolation. *)
Lemma fade_pulse_width_exact (fade_in : bool) (s : Z) :
  config_in_range P N -> P * N < 2 ^ 32 -> 0 <= s <= N ->
  pulse fade_in s = P * (if fade_in then s else N - s) / N.
Proof.
  intros [HP HN] Hov Hs.
  rewrite fade_pulse_width_steps by lia.
  rewrite u32_small; [reflexivity|].
  destruct fade_in; nia.
Qed.

Lemma fade_pulse_width_bounds (fade_in : bool) (s : Z) :
  config_in_range P N -> 0 <= s <= N ->
  0 <= pulse fade_in s <= P.
Proof.
  intros [HP HN] Hs.
  rewrite fade_pulse_width_steps by lia.
  set (t := if fade_in then s else N - s).
  assert (Ht : 0 <= t <= N) by (subst t; destruct fade_in; lia).
  split.
  - apply Z.div_pos; [apply u32_range | lia].
  - apply Z.div_le_upper_bound; [lia|].
    transitivity (P * t); [apply u32_le; nia | nia].
Qed.

End PulseWidth.

(** ** Runs of the ramp loop *)

Lemma applied_pulses_app (l1 l2 : list event) :
  applied_pulses (l1 ++ l2) = applied_pulses l1 ++ applied_pulses l2.
Proof.
  induction l1 as [|e l1 IH]; [reflexivity|].
  destruct e; cbn [app applied_pulses]; rewrite IH; reflexivity.
Qed.

Lemma pwm_writes_app (l1 l2 : list event) :
  pwm_writes (l1 ++ l2) = pwm_writes l1 ++ pwm_writes l2.
Proof. unfold pwm_writes. apply filter_app. Qed.

Lemma zrange_length (n : nat) : forall a, List.length (zrange a n) = n.
Proof. induction n as [|n IH]; intros a; cbn; [|rewrite IH]; reflexivity. Qed.

Lemma zrange_snoc (n : nat) :
  forall a, zrange a (S n) = zrange a n ++ [a + Z.of_nat n].
Proof.
  induction n as [|n IH]; intros a.
  - cbn. now rewrite Z.add_0_r.
  - change (zrange a (S (S n))) with (a :: zrange (a + 1) (S n)).
    rewrite IH. cbn [zrange app]. do 3 f_equal. lia.
Qed.

Lemma zrange_In (n : nat) :
  forall a s, In s (zrange a n) -> a <= s < a + Z.of_nat n.
Proof.
  induction n as [|n IH]; intros a s; cbn [zrange In]; [tauto|].
  intros [<- | Hin]; [lia|]. apply IH in Hin. lia.
Qed.

Section RampRuns.

Variables P N : Z.
Variable driver : nat -> pwm_dt_spec -> Z -> Z -> Z.
Variable led : pwm_dt_spec.
Variable fade_in : bool.

Local Abbreviation pulse := (fade_pulse_width P N fade_in).
Local Abbreviation loop := (fade_led_loop P N driver).
Local Abbreviation steps := (ok_steps P N driver led fade_in).

Local Abbreviation ret_at := (step_ret P N driver led fade_in).

Lemma ok_steps_pulses (m : nat) :
  forall step c, applied_pulses (steps m step c) = map pulse (zrange step m).
Proof.
  induction m as [|m IH]; intros step c; [reflexivity|].
  cbn [ok_steps applied_pulses zrange map]. now rewrite IH.
Qed.

Lemma ok_steps_writes (m : nat) :
  forall step c, List.length (pwm_writes (steps m step c)) = m.
Proof.
  induction m as [|m IH]; intros step c; [reflexivity|].
  cbn [ok_steps pwm_writes filter is_pwm_set List.length].
  f_equal. apply IH.
Qed.

(** One iteration whose write succeeds. *)
Lemma fade_led_loop_ok (iters : nat) (step : Z) (c : nat) :
  step <= N -> 0 <= ret_at step c ->
  loop (S iters) led fade_in step c =
  let r := loop iters led fade_in (step + 1) (S c) in
  {| value := value r;
     events := EvPwmSet led P (pulse step) (ret_at step c)
               :: EvSleep FADE_STEP_MS :: events r;
     calls := calls r |}.
Proof.
  intros Hs Hok. unfold step_ret in *.
  cbn [fade_led_loop].
  apply Z.leb_le in Hs. rewrite Hs.
  unfold bind at 1. cbn [pwm_set_dt value events calls].
  apply Z.ltb_ge in Hok. rewrite Hok.
  reflexivity.
Qed.

(** One iteration whose write fails: the error is printed and the function
    returns. *)
Lemma fade_led_loop_fail (iters : nat) (step : Z) (c : nat) :
  step <= N -> ret_at step c < 0 ->
  loop (S iters) led fade_in step c =
  {| value := tt;
     events := [EvPwmSet led P (pulse step) (ret_at step c);
                EvPrintk "Error setting PWM: %d\n" [ArgInt (ret_at step c)]];
     calls := S c |}.
Proof.
  intros Hs Hfail. unfold step_ret in *.
  cbn [fade_led_loop].
  apply Z.leb_le in Hs. rewrite Hs.
  unfold bind at 1. cbn [pwm_set_dt value events calls].
  apply Z.ltb_lt in Hfail. rewrite Hfail.
  reflexivity.
Qed.

(** The loop is left when the guard fails. *)
Lemma fade_led_loop_done (iters : nat) (step : Z) (c : nat) :
  N < step ->
  loop iters led fade_in step c = {| value := tt; events := []; calls := c |}.
Proof.
  intros Hs. destruct iters; [reflexivity|].
  cbn [fade_led_loop]. apply Z.leb_gt in Hs. rewrite Hs. reflexivity.
Qed.

(** The iteration bound of [fade_led_loop] never cuts the loop short: once it
    covers the steps that remain, a larger bound gives the same run. *)
Lemma fade_led_loop_iters_enough (iters : nat) :
  forall step c extra,
    N + 1 - step <= Z.of_nat iters ->
    loop (iters + extra) led fade_in step c = loop iters led fade_in step c.
Proof.
  induction iters as [|iters IH]; intros step c extra Hrem.
  - rewrite !fade_led_loop_done by lia. reflexivity.
  - change (S iters + extra)%nat with (S (iters + extra)).
    cbn [fade_led_loop].
    destruct (step <=? N); [|reflexivity].
    unfold bind at 1 3. cbn [pwm_set_dt value events calls].
    destruct (driver c led P (pulse step) <? 0); [reflexivity|].
    unfold bind. cbn [k_msleep value events calls].
    rewrite IH by lia. reflexivity.
Qed.

(** [m] successful iterations in a row. *)
Lemma fade_led_loop_prefix (m : nat) :
  forall iters step c,
    step + Z.of_nat m <= N + 1 ->
    (forall j, (j < m)%nat ->
               0 <= ret_at (step + Z.of_nat j) (c + j)%nat) ->
    loop (m + iters) led fade_in step c =
    let r := loop iters led fade_in (step + Z.of_nat m) (c + m)%nat in
    {| value := value r;
       events := steps m step c ++ events r;
       calls := calls r |}.
Proof.
  induction m as [|m IH]; intros iters step c Hle Hok.
  - cbn [Nat.add ok_steps app Z.of_nat].
    rewrite Z.add_0_r, Nat.add_0_r.
    destruct (loop iters led fade_in step c); reflexivity.
  - change (S m + iters)%nat with (S (m + iters)).
    rewrite fade_led_loop_ok.
    + rewrite (IH iters (step + 1) (S c)).
      * cbn [ok_steps app value events calls].
        replace (step + 1 + Z.of_nat m) with (step + Z.of_nat (S m)) by lia.
        replace (S c + m)%nat with (c + S m)%nat by lia.
        reflexivity.
      * lia.
      * intros j Hj.
        replace (step + 1 + Z.of_nat j) with (step + Z.of_nat (S j)) by lia.
        replace (S c + j)%nat with (c + S j)%nat by lia.
        apply Hok. lia.
    + lia.
    + specialize (Hok 0%nat ltac:(lia)).
      now rewrite Z.add_0_r, Nat.add_0_r in Hok.
Qed.

(** A ramp whose first [k] writes succeed and whose write at step [k]
    fails. *)
Lemma fade_led_fails_at (k : nat) (c : nat) :
  0 <= Z.of_nat k <= N ->
  (forall j, (j < k)%nat -> 0 <= ret_at (Z.of_nat j) (c + j)%nat) ->
  ret_at (Z.of_nat k) (c + k)%nat < 0 ->
  fade_led P N driver led fade_in c =
  {| value := tt;
     events := steps k 0 c ++
               [EvPwmSet led P (pulse (Z.of_nat k))
                         (ret_at (Z.of_nat k) (c + k)%nat);
                EvPrintk "Error setting PWM: %d\n"
                         [ArgInt (ret_at (Z.of_nat k) (c + k)%nat)]];
     calls := S (c + k)%nat |}.
Proof.
  intros Hk Hok Hfail. unfold fade_led.
  replace (Z.to_nat (N + 1)) with (k + S (Z.to_nat (N - Z.of_nat k)))%nat
    by lia.
  rewrite fade_led_loop_prefix by (cbn; auto; lia).
  cbn [Z.add]. rewrite fade_led_loop_fail by (auto; lia).
  reflexivity.
Qed.

(** A ramp all of whose writes succeed. *)
Lemma fade_led_succeeds (c : nat) :
  0 <= N ->
  (forall j, (j <= Z.to_nat N)%nat -> 0 <= ret_at (Z.of_nat j) (c + j)%nat) ->
  fade_led P N driver led fade_in c =
  {| value := tt;
     events := steps (S (Z.to_nat N)) 0 c;
     calls := (c + S (Z.to_nat N))%nat |}.
Proof.
  intros HN Hok. unfold fade_led.
  replace (Z.to_nat (N + 1)) with (S (Z.to_nat N) + 0)%nat by lia.
  rewrite fade_led_loop_prefix.
  - rewrite fade_led_loop_done by lia.
    cbn [value events calls]. now rewrite app_nil_r.
  - lia.
  - intros j Hj. apply Hok. lia.
Qed.

End RampRuns.

(** ** Runs under an arbitrary driver *)

Section AnyDriver.

Variables P N : Z.
Variable driver : nat -> pwm_dt_spec -> Z -> Z -> Z.
Variable led : pwm_dt_spec.
Variable fade_in : bool.

Local Abbreviation pulse := (fade_pulse_width P N fade_in).

(** Whatever the driver answers, the loop writes the pulse widths of an
    initial run of consecutive steps and nothing else. *)
Lemma fade_led_loop_pulses (iters : nat) :
  forall step c,
    step <= N + 1 ->
    exists m : nat,
      (m <= iters)%nat /\ step + Z.of_nat m <= N + 1 /\
      applied_pulses (events (fade_led_loop P N driver iters led fade_in step c))
      = map pulse (zrange step m).
Proof.
  induction iters as [|iters IH]; intros step c Hstep.
  - exists 0%nat. cbn. repeat split; lia.
  - cbn [fade_led_loop].
    destruct (step <=? N) eqn:Hguard.
    + apply Z.leb_le in Hguard.
      unfold bind at 1. cbn [pwm_set_dt value events calls].
      destruct (driver c led P (pulse step) <? 0) eqn:Hret.
      * exists 1%nat. cbn. repeat split; lia.
      * destruct (IH (step + 1) (S c)) as (m & Hm & Hle & Hp); [lia|].
        exists (S m). repeat split; [lia | lia |].
        unfold bind at 1. cbn [k_msleep value events calls app].
        cbn [applied_pulses app zrange map]. now rewrite Hp.
    + exists 0%nat. cbn. repeat split; lia.
Qed.

Lemma fade_led_pulses (c : nat) :
  0 <= N ->
  exists m : nat,
    Z.of_nat m <= N + 1 /\
    applied_pulses (events (fade_led P N driver led fade_in c))
    = map pulse (zrange 0 m).
Proof.
  intros HN. unfold fade_led.
  destruct (fade_led_loop_pulses (Z.to_nat (N + 1)) 0 c) as (m & _ & Hle & Hp);
    [lia|].
  exists m. split; [lia | exact Hp].
Qed.

End AnyDriver.

(** A function that is monotone on an interval maps its consecutive indices to
    a sorted list. *)
Lemma map_zrange_sorted (R : Z -> Z -> Prop) (f : Z -> Z) (hi : Z) (n : nat) :
  forall a,
    0 <= a -> a + Z.of_nat n <= hi + 1 ->
    (forall s t, 0 <= s <= t -> t <= hi -> R (f s) (f t)) ->
    StronglySorted R (map f (zrange a n)).
Proof.
  induction n as [|n IH]; intros a Ha Hhi Hmono; cbn [zrange map].
  - constructor.
  - constructor.
    + apply IH; [lia | lia | exact Hmono].
    + apply Forall_forall. intros y Hy.
      apply in_map_iff in Hy. destruct Hy as (t & <- & Hin).
      apply zrange_In in Hin. apply Hmono; lia.
Qed.

Section Interpolation.

Variables P N : Z.
Hypothesis Hcfg : config_in_range P N.
Hypothesis Hprod : P * N < 2 ^ 32.

Lemma fade_pulse_width_endpoints :
  fade_pulse_width P N true 0 = 0 /\ fade_pulse_width P N true N = P /\
  fade_pulse_width P N false 0 = P /\ fade_pulse_width P N false N = 0.
Proof.
  destruct Hcfg as [HP HN].
  rewrite !fade_pulse_width_exact by (auto; lia).
  rewrite Z.sub_0_r, Z.sub_diag, Z.mul_0_r, Z.div_0_l, Z.div_mul by lia.
  auto.
Qed.

Lemma fade_pulse_width_mono (s t : Z) :
  0 <= s <= t -> t <= N ->
  fade_pulse_width P N true s <= fade_pulse_width P N true t /\
  fade_pulse_width P N false t <= fade_pulse_width P N false s.
Proof.
  intros Hst Ht. destruct Hcfg as [HP HN].
  rewrite !fade_pulse_width_exact by (auto; lia).
  split; apply Z.div_le_mono; nia.
Qed.

End Interpolation.

(** ** The ramp: claims *)

Lemma last_two {A : Type} (l : list A) (a b d : A) :
  last (l ++ [a; b]) d = b.
Proof.
  change [a; b] with ([a] ++ [b]). rewrite app_assoc. apply last_last.
Qed.

(** C1 (amended).  If the write of step [k] fails during one [fade_led] call
    (the earlier writes of the call having succeeded), the call writes exactly
    the pulse widths of steps [0 .. k], so [k + 1] writes and none for a step
    after [k], and its last action is to print the error code on the
    console. *)
Theorem fade_led_fail_stop (P N : Z)
    (driver : nat -> pwm_dt_spec -> Z -> Z -> Z)
    (led : pwm_dt_spec) (fade_in : bool) (c k : nat) :
  0 <= Z.of_nat k < N ->
  (forall j, (j < k)%nat ->
             0 <= step_ret P N driver led fade_in (Z.of_nat j) (c + j)%nat) ->
  step_ret P N driver led fade_in (Z.of_nat k) (c + k)%nat < 0 ->
  let r := fade_led P N driver led fade_in c in
  applied_pulses (events r)
  = map (fade_pulse_width P N fade_in) (zrange 0 (S k)) /\
  List.length (pwm_writes (events r)) = S k /\
  calls r = S (c + k) /\
  last (events r) (EvSleep 0)
  = EvPrintk "Error setting PWM: %d\n"
             [ArgInt (step_ret P N driver led fade_in (Z.of_nat k) (c + k)%nat)].
Proof.
  intros Hk Hok Hfail r. subst r.
  rewrite (fade_led_fails_at P N driver led fade_in k c) by (auto; lia).
  cbn [events calls]. repeat split.
  - rewrite applied_pulses_app, ok_steps_pulses, zrange_snoc, map_app.
    reflexivity.
  - rewrite pwm_writes_app, length_app, ok_steps_writes. cbn. lia.
  - apply last_two.
Qed.

Lemma fade_led_fail_stop_witness :
  let r := fade_led 1000 100 (Nrf5340dk.failing_at 2) Nrf5340dk.pwm_led0 true 0%nat in
  applied_pulses (events r) = [0; 10; 20] /\
  List.length (pwm_writes (events r)) = 3%nat /\
  calls r = 3%nat /\
  last (events r) (EvSleep 0) = EvPrintk "Error setting PWM: %d\n" [ArgInt (-5)].
Proof.
  apply (fade_led_fail_stop 1000 100 (Nrf5340dk.failing_at 2)
                            Nrf5340dk.pwm_led0 true 0%nat 2%nat).
  - lia.
  - intros j Hj. destruct j as [|[|j]]; [vm_compute; discriminate .. | lia].
  - reflexivity.
Defined.

(** C1 as stated fails: [fade_led] is a [void] function, so a call whose
    write is rejected hands its caller the same value as a call that
    completes the ramp. *)
Lemma fade_led_error_not_propagated :
  step_ret 1000 100 (Nrf5340dk.failing_at 2) Nrf5340dk.pwm_led0 true 2 2%nat < 0 /\
  List.length
    (pwm_writes
       (events (fade_led 1000 100 (Nrf5340dk.failing_at 2)
                         Nrf5340dk.pwm_led0 true 0%nat))) = 3%nat /\
  List.length
    (pwm_writes
       (events (fade_led 1000 100 Nrf5340dk.working
                         Nrf5340dk.pwm_led0 true 0%nat))) = 101%nat /\
  value (fade_led 1000 100 (Nrf5340dk.failing_at 2) Nrf5340dk.pwm_led0 true 0%nat)
  = value (fade_led 1000 100 Nrf5340dk.working Nrf5340dk.pwm_led0 true 0%nat).
Proof.
  split; [vm_compute; reflexivity|].
  split; [vm_compute; reflexivity|].
  split; vm_compute; reflexivity.
Qed.

(** C3 (amended).  For every period and step count representable in the C
    types whose product does not exceed the 32-bit unsigned range, the pulse
    width is [0] at step [0] and exactly the period at the last step for a
    fade-in, and the reverse for a fade-out; a ramp without a failed write
    applies the pulse widths of all steps, starting and ending on these
    boundary values. *)
Theorem fade_led_endpoints (P N : Z)
    (driver : nat -> pwm_dt_spec -> Z -> Z -> Z)
    (led : pwm_dt_spec) (fade_in : bool) (c : nat) :
  config_in_range P N -> P * N < 2 ^ 32 ->
  (forall j, (j <= Z.to_nat N)%nat ->
             0 <= step_ret P N driver led fade_in (Z.of_nat j) (c + j)%nat) ->
  let ps := applied_pulses (events (fade_led P N driver led fade_in c)) in
  fade_pulse_width P N fade_in 0 = (if fade_in then 0 else P) /\
  fade_pulse_width P N fade_in N = (if fade_in then P else 0) /\
  ps = map (fade_pulse_width P N fade_in) (zrange 0 (S (Z.to_nat N))) /\
  hd_error ps = Some (if fade_in then 0 else P) /\
  last ps (-1) = (if fade_in then P else 0).
Proof.
  intros Hcfg Hprod Hok ps.
  destruct (fade_pulse_width_endpoints P N Hcfg Hprod) as (Hi0 & HiN & Ho0 & HoN).
  assert (H0 : fade_pulse_width P N fade_in 0 = (if fade_in then 0 else P))
    by (destruct fade_in; assumption).
  assert (HN : fade_pulse_width P N fade_in N = (if fade_in then P else 0))
    by (destruct fade_in; assumption).
  assert (Hps : ps = map (fade_pulse_width P N fade_in)
                         (zrange 0 (S (Z.to_nat N)))).
  { subst ps. destruct Hcfg as [_ Hn].
    rewrite (fade_led_succeeds P N driver led fade_in c) by (auto; lia).
    cbn [events]. apply ok_steps_pulses. }
  repeat split; try assumption.
  - rewrite Hps. cbn [zrange map hd_error]. now rewrite H0.
  - rewrite Hps, zrange_snoc, map_app. cbn [map].
    rewrite last_last, Z.add_0_l, Z2Nat.id by (destruct Hcfg; lia).
    exact HN.
Qed.

Lemma fade_led_endpoints_witness :
  let ps := applied_pulses
              (events (fade_led 1000 100 Nrf5340dk.working
                                Nrf5340dk.pwm_led1 false 7%nat)) in
  hd_error ps = Some 1000 /\ last ps (-1) = 0.
Proof.
  pose proof (fade_led_endpoints 1000 100 Nrf5340dk.working
                                 Nrf5340dk.pwm_led1 false 7%nat) as H.
  cbv zeta in H.
  apply H.
  - unfold config_in_range. lia.
  - lia.
  - intros j _. vm_compute. discriminate.
Defined.

(** C3 as stated fails: with a period of 1000000 and 5000 steps the product
    wraps around in [unsigned int], and a fade-in without any failed write
    ends on 141006 instead of the period. *)
Lemma fade_endpoint_wraps :
  config_in_range 1000000 5000 /\
  fade_pulse_width 1000000 5000 true 5000 = 141006 /\
  fade_pulse_width 1000000 5000 false 0 = 141006 /\
  last (applied_pulses
          (events (fade_led 1000000 5000 Nrf5340dk.working
                            Nrf5340dk.pwm_led0 true 0%nat))) (-1) <> 1000000.
Proof.
  split; [unfold config_in_range; lia|].
  split; [vm_compute; reflexivity|].
  split; [vm_compute; reflexivity|].
  vm_compute. discriminate.
Qed.

(** C4 (amended).  For every period and step count representable in the C
    types whose product does not exceed the 32-bit unsigned range, the pulse
    width of a fade-in is non-decreasing in the step and that of a fade-out
    is non-increasing, and so are the pulse widths a ramp applies, whatever
    the driver answers. *)
Theorem fade_led_monotone (P N : Z)
    (driver : nat -> pwm_dt_spec -> Z -> Z -> Z)
    (led : pwm_dt_spec) (c : nat) :
  config_in_range P N -> P * N < 2 ^ 32 ->
  (forall s t, 0 <= s <= t -> t <= N ->
     fade_pulse_width P N true s <= fade_pulse_width P N true t /\
     fade_pulse_width P N false t <= fade_pulse_width P N false s) /\
  StronglySorted Z.le
    (applied_pulses (events (fade_led P N driver led true c))) /\
  StronglySorted Z.ge
    (applied_pulses (events (fade_led P N driver led false c))).
Proof.
  intros Hcfg Hprod.
  pose proof (fade_pulse_width_mono P N Hcfg Hprod) as Hmono.
  assert (HN : 0 <= N) by (destruct Hcfg; lia).
  split; [exact Hmono|]. split.
  - destruct (fade_led_pulses P N driver led true c HN) as (m & Hm & ->).
    apply (map_zrange_sorted Z.le _ N); [lia | lia |].
    intros s t Hst Ht. apply (Hmono s t Hst Ht).
  - destruct (fade_led_pulses P N driver led false c HN) as (m & Hm & ->).
    apply (map_zrange_sorted Z.ge _ N); [lia | lia |].
    intros s t Hst Ht. apply Z.le_ge. apply (Hmono s t Hst Ht).
Qed.

Lemma fade_led_monotone_witness :
  fade_pulse_width 1000 3 true 1 <= fade_pulse_width 1000 3 true 2 /\
  StronglySorted Z.le
    (applied_pulses
       (events (fade_led 1000 3 (Nrf5340dk.failing_at 9)
                         Nrf5340dk.pwm_led2 true 7%nat))).
Proof.
  assert (Hcfg : config_in_range 1000 3) by (unfold config_in_range; lia).
  assert (Hprod : 1000 * 3 < 2 ^ 32) by lia.
  destruct (fade_led_monotone 1000 3 (Nrf5340dk.failing_at 9)
                              Nrf5340dk.pwm_led2 7%nat Hcfg Hprod)
    as (Hf & Hin & _).
  split; [apply (Hf 1 2); lia | exact Hin].
Defined.

(** C4 as stated fails: with a period of 1000000 and 5000 steps the product
    wraps around between steps 4294 and 4295, where the fade-in pulse width
    drops from 858800 to 6; the fade-out rises at the mirrored steps. *)
Lemma fade_not_monotone_on_wrap :
  config_in_range 1000000 5000 /\
  fade_pulse_width 1000000 5000 true 4294 = 858800 /\
  fade_pulse_width 1000000 5000 true 4295 = 6 /\
  fade_pulse_width 1000000 5000 false 705 = 6 /\
  fade_pulse_width 1000000 5000 false 706 = 858800 /\
  ~ StronglySorted Z.le
      (map (fade_pulse_width 1000000 5000 true) [4294; 4295]).
Proof.
  split; [unfold config_in_range; lia|].
  do 4 (split; [vm_compute; reflexivity|]).
  intros H. inversion H as [|a l _ Hall]; subst.
  inversion Hall as [|b l' Hle _]; subst.
  vm_compute in Hle. apply Hle. reflexivity.
Qed.

(** C5.  For a period and a step count representable in the C types, the
    pulse width of every step index in [0 .. stepCount] lies in
    [0 .. period], in both directions, and so does every pulse width a ramp
    hands to the driver, whatever the driver answers. *)
Theorem fade_led_pulse_bounds (P N : Z)
    (driver : nat -> pwm_dt_spec -> Z -> Z -> Z)
    (led : pwm_dt_spec) (fade_in : bool) (c : nat) (s : Z) :
  config_in_range P N -> 0 <= s <= N ->
  0 <= fade_pulse_width P N fade_in s <= P /\
  Forall (fun pw => 0 <= pw <= P)
         (applied_pulses (events (fade_led P N driver led fade_in c))).
Proof.
  intros Hcfg Hs. split.
  - apply fade_pulse_width_bounds; assumption.
  - assert (HN : 0 <= N) by (destruct Hcfg; lia).
    destruct (fade_led_pulses P N driver led fade_in c HN) as (m & Hm & ->).
    apply Forall_forall. intros pw Hin.
    apply in_map_iff in Hin. destruct Hin as (t & <- & Ht).
    apply zrange_In in Ht.
    apply fade_pulse_width_bounds; [assumption | lia].
Qed.

Lemma fade_led_pulse_bounds_witness :
  0 <= fade_pulse_width 4000000000 7 true 5 <= 4000000000 /\
  Forall (fun pw => 0 <= pw <= 4000000000)
         (applied_pulses
            (events (fade_led 4000000000 7 Nrf5340dk.working
                              Nrf5340dk.pwm_led3 true 0%nat))).
Proof.
  apply (fade_led_pulse_bounds 4000000000 7 Nrf5340dk.working
                               Nrf5340dk.pwm_led3 true 0%nat 5).
  - unfold config_in_range. lia.
  - lia.
Defined.

(** C6.  For every LED, direction and step count of at least one (and below
    [INT_MAX], so that the [int] loop counter does not overflow), a
    [fade_led] call none of whose writes fails performs exactly
    [stepCount + 1] writes. *)
Theorem fade_led_write_count (P N : Z)
    (driver : nat -> pwm_dt_spec -> Z -> Z -> Z)
    (led : pwm_dt_spec) (fade_in : bool) (c : nat) :
  1 <= N < 2 ^ 31 - 1 ->
  (forall j, (j <= Z.to_nat N)%nat ->
             0 <= step_ret P N driver led fade_in (Z.of_nat j) (c + j)%nat) ->
  let r := fade_led P N driver led fade_in c in
  Z.of_nat (List.length (pwm_writes (events r))) = N + 1 /\
  calls r = (c + Z.to_nat (N + 1))%nat.
Proof.
  intros HN Hok r. subst r.
  rewrite (fade_led_succeeds P N driver led fade_in c) by (auto; lia).
  cbn [events calls]. rewrite ok_steps_writes. split; lia.
Qed.

Lemma fade_led_write_count_witness :
  let r := fade_led 1000 100 Nrf5340dk.working Nrf5340dk.pwm_led0 false 4%nat in
  Z.of_nat (List.length (pwm_writes (events r))) = 101 /\ calls r = 105%nat.
Proof.
  apply (fade_led_write_count 1000 100 Nrf5340dk.working
                              Nrf5340dk.pwm_led0 false 4%nat).
  - lia.
  - intros j _. vm_compute. discriminate.
Defined.

(** C8.  With a period of 1000 and 3 steps, a fade-in none of whose writes
    fails applies exactly the pulse widths 0, 333, 666, 1000: the steps are
    of unequal size under truncating division and both endpoints are
    exact. *)
Theorem fade_in_1000_by_3 (driver : nat -> pwm_dt_spec -> Z -> Z -> Z)
    (led : pwm_dt_spec) (c : nat) :
  (forall j, (j <= 3)%nat ->
             0 <= step_ret 1000 3 driver led true (Z.of_nat j) (c + j)%nat) ->
  applied_pulses (events (fade_led 1000 3 driver led true c))
  = [0; 333; 666; 1000].
Proof.
  intros Hok.
  rewrite (fade_led_succeeds 1000 3 driver led true c) by (auto; lia).
  cbn [events]. rewrite ok_steps_pulses. vm_compute. reflexivity.
Qed.

Lemma fade_in_1000_by_3_witness :
  applied_pulses
    (events (fade_led 1000 3 Nrf5340dk.working Nrf5340dk.pwm_led0 true 0%nat))
  = [0; 333; 666; 1000].
Proof.
  apply (fade_in_1000_by_3 Nrf5340dk.working Nrf5340dk.pwm_led0 0%nat).
  intros j _. vm_compute. discriminate.
Defined.

(** C10.  For every brightness [b] in [0 .. 255], [set_led_brightness] with
    the period 1000 hands the driver the pulse width [1000 * b / 100],
    unclamped: it exceeds the period whenever [b > 100] and lies in
    [0 .. 1000] whenever [b <= 100]. *)
Theorem set_led_brightness_unclamped
    (driver : nat -> pwm_dt_spec -> Z -> Z -> Z)
    (led : pwm_dt_spec) (c : nat) (b : Z) :
  0 <= b <= 255 ->
  let pw := 1000 * b / 100 in
  let r := set_led_brightness 1000 driver led b c in
  brightness_pulse_width 1000 b = pw /\
  hd_error (events r) = Some (EvPwmSet led 1000 pw (driver c led 1000 pw)) /\
  applied_pulses (events r) = [pw] /\
  (100 < b -> 1000 < pw) /\
  (b <= 100 -> 0 <= pw <= 1000).
Proof.
  intros Hb pw r.
  assert (Hpw : brightness_pulse_width 1000 b = pw).
  { unfold brightness_pulse_width, u8.
    rewrite (Z.mod_small b) by lia.
    rewrite (u32_small b) by lia.
    rewrite u32_small by lia. reflexivity. }
  assert (Hten : pw = 10 * b).
  { subst pw. replace (1000 * b) with (10 * b * 100) by lia.
    apply Z.div_mul. lia. }
  split; [exact Hpw|].
  subst r. unfold set_led_brightness. rewrite Hpw.
  unfold bind. cbn [pwm_set_dt value events calls].
  destruct (driver c led 1000 pw <? 0); cbn [printk ret events app];
    (split; [reflexivity|]); (split; [reflexivity|]); split; lia.
Qed.

Lemma set_led_brightness_unclamped_witness :
  brightness_pulse_width 1000 255 = 2550 /\
  applied_pulses
    (events (set_led_brightness 1000 Nrf5340dk.working
                                Nrf5340dk.pwm_led0 255 0%nat)) = [2550] /\
  1000 < 2550.
Proof.
  destruct (set_led_brightness_unclamped Nrf5340dk.working
              Nrf5340dk.pwm_led0 0%nat 255 ltac:(lia))
    as (Hpw & _ & Hps & Hgt & _).
  split; [exact Hpw|]. split; [exact Hps|]. apply Hgt. lia.
Defined.

(** ** Startup and the cycling loop *)

Section Startup.

Variables P N : Z.
Variables l0 l1 l2 l3 : pwm_dt_spec.
Variable rdy : device -> bool.
Variable drv : nat -> pwm_dt_spec -> Z -> Z -> Z.

Local Abbreviation leds := [l0; l1; l2; l3].

(** The readiness loop stops at the first LED whose device is not ready. *)
Lemma check_ready_loop_run (c : nat) :
  check_ready_loop l0 l1 l2 l3 rdy 4 0 c =
  match first_not_ready rdy leds 0 with
  | Some i =>
      {| value := Some (-1);
         events := ready_events (firstn i leds) 0 ++
                   [EvDeviceIsReady (dev (nth i leds l0)) false;
                    EvPrintk "Error: PWM device %s is not ready\n"
                             [ArgStr (name (dev (nth i leds l0)))]];
         calls := c |}
  | None => {| value := None; events := ready_events leds 0; calls := c |}
  end.
Proof.
  cbn [first_not_ready].
  destruct (rdy (dev l0)) eqn:E0; [|cbv -[dev name]; rewrite E0; reflexivity].
  destruct (rdy (dev l1)) eqn:E1; [|cbv -[dev name]; rewrite E0, E1; reflexivity].
  destruct (rdy (dev l2)) eqn:E2; [|cbv -[dev name]; rewrite E0, E1, E2; reflexivity].
  destruct (rdy (dev l3)) eqn:E3; cbv -[dev name]; rewrite E0, E1, E2, E3; reflexivity.
Qed.

(** [turn_off_all_leds] writes a zero pulse width to each LED in turn and
    reads no return code. *)
Lemma turn_off_all_leds_run (c : nat) :
  turn_off_all_leds P l0 l1 l2 l3 drv c =
  {| value := tt; events := zeroing_events P drv leds c; calls := (4 + c)%nat |}.
Proof. reflexivity. Qed.

(** A pass of the endless loop performs its four phases whatever happened
    inside the two ramps. *)
Lemma cycle_body_run (current_led : Z) (c : nat) :
  let led := pwm_leds_at l0 l1 l2 l3 current_led in
  let r_in := fade_led P N drv led true c in
  let r_out := fade_led P N drv led false (calls r_in) in
  cycle_body P N l0 l1 l2 l3 drv current_led c =
  {| value := u32 (current_led + 1) mod 4;
     events := EvPrintk "Fading LED %d\n" [ArgInt current_led]
               :: events r_in ++ EvSleep 200 :: events r_out ++ [EvSleep 100];
     calls := calls r_out |}.
Proof.
  cbv zeta. unfold cycle_body, bind.
  cbn [printk k_msleep ret value events calls app].
  reflexivity.
Qed.

(** [main] up to the end of the readiness loop. *)
Lemma main_run (n : nat) (c : nat) :
  main P N l0 l1 l2 l3 rdy drv n c =
  let banner := EvPrintk "PWM Fading Blinky Sample for nRF5340 DK\n" [] in
  match first_not_ready rdy leds 0 with
  | Some i =>
      {| value := Some (-1);
         events := banner :: ready_events (firstn i leds) 0 ++
                   [EvDeviceIsReady (dev (nth i leds l0)) false;
                    EvPrintk "Error: PWM device %s is not ready\n"
                             [ArgStr (name (dev (nth i leds l0)))]];
         calls := c |}
  | None =>
      let r := cycle_loop P N l0 l1 l2 l3 drv n 0 (4 + c)%nat in
      {| value := None;
         events := banner :: ready_events leds 0 ++
                   zeroing_events P drv leds c ++ events r;
         calls := calls r |}
  end.
Proof.
  unfold main. unfold bind at 1 2.
  change (Z.to_nat (NUM_LEDS l0 l1 l2 l3)) with 4%nat.
  cbn [printk value events calls]. rewrite check_ready_loop_run.
  destruct (first_not_ready rdy leds 0) as [i|].
  - cbn [value events calls ret app]. now rewrite app_nil_r.
  - cbn [value events calls]. unfold bind.
    rewrite turn_off_all_leds_run.
    cbn [value events calls ret app]. now rewrite app_nil_r.
Qed.

End Startup.

Lemma ready_events_no_writes (ls : list pwm_dt_spec) :
  forall i, pwm_writes (ready_events ls i) = [].
Proof.
  induction ls as [|l ls IH]; intros i; [reflexivity|].
  cbn [ready_events pwm_writes filter is_pwm_set]. apply IH.
Qed.

(** C7.  [main] checks the devices of the LEDs in order before anything else.
    If some device is not ready, [main] prints the name of the first such
    device and returns [-1] having made no driver call and no pass of the
    loop; otherwise the zeroing writes and the loop come after the readiness
    checks of all four LEDs. *)
Theorem main_readiness_gate (P N : Z) (l0 l1 l2 l3 : pwm_dt_spec)
    (rdy : device -> bool) (drv : nat -> pwm_dt_spec -> Z -> Z -> Z)
    (n : nat) :
  let leds := [l0; l1; l2; l3] in
  let banner := EvPrintk "PWM Fading Blinky Sample for nRF5340 DK\n" [] in
  let r := main P N l0 l1 l2 l3 rdy drv n 0%nat in
  match first_not_ready rdy leds 0 with
  | Some i =>
      (i < 4)%nat /\
      rdy (dev (nth i leds l0)) = false /\
      value r = Some (-1) /\
      events r = banner :: ready_events (firstn i leds) 0 ++
                 [EvDeviceIsReady (dev (nth i leds l0)) false;
                  EvPrintk "Error: PWM device %s is not ready\n"
                           [ArgStr (name (dev (nth i leds l0)))]] /\
      pwm_writes (events r) = [] /\
      calls r = 0%nat
  | None =>
      forallb rdy (map dev leds) = true /\
      value r = None /\
      events r = banner :: ready_events leds 0 ++
                 zeroing_events P drv leds 0 ++
                 events (cycle_loop P N l0 l1 l2 l3 drv n 0 4%nat) /\
      pwm_writes (banner :: ready_events leds 0) = []
  end.
Proof.
  intros leds banner r. subst leds banner r.
  rewrite main_run. cbv zeta. cbn [first_not_ready map forallb].
  destruct (rdy (dev l0)) eqn:E0; [destruct (rdy (dev l1)) eqn:E1;
    [destruct (rdy (dev l2)) eqn:E2; [destruct (rdy (dev l3)) eqn:E3|]|]|];
  cbn [value events calls nth firstn ready_events app andb];
  (split; [first [lia | reflexivity]|]);
  (split; [first [assumption | reflexivity]|]);
  (split; [reflexivity|]);
  try reflexivity;
  (split; [reflexivity|]); split; reflexivity.
Qed.

Lemma main_readiness_gate_witness :
  let rdy := fun d : device => negb (String.eqb (name d) "pwm2") in
  let r := main 1000 100 Nrf5340dk.pwm_led0 Nrf5340dk.pwm_led1
                Nrf5340dk.pwm_led2 Nrf5340dk.pwm_led3
                rdy Nrf5340dk.working 3 0%nat in
  value r = Some (-1) /\
  pwm_writes (events r) = [] /\
  last (events r) (EvSleep 0)
  = EvPrintk "Error: PWM device %s is not ready\n" [ArgStr "pwm2"].
Proof.
  intros rdy r.
  pose proof (main_readiness_gate 1000 100 Nrf5340dk.pwm_led0
                Nrf5340dk.pwm_led1 Nrf5340dk.pwm_led2 Nrf5340dk.pwm_led3
                rdy Nrf5340dk.working 3) as H.
  cbv zeta in H.
  change (first_not_ready rdy
            [Nrf5340dk.pwm_led0; Nrf5340dk.pwm_led1;
             Nrf5340dk.pwm_led2; Nrf5340dk.pwm_led3] 0) with (Some 2%nat) in H.
  destruct H as (_ & _ & Hval & Hev & Hw & _).
  split; [exact Hval|]. split; [exact Hw|].
  subst r. rewrite Hev. reflexivity.
Defined.

(** C9.  When every device is ready, [main] writes a zero pulse width to each
    of the four LEDs and, whatever return codes the driver gave to these
    writes, goes on into the loop: the next event is the announcement of the
    fade of LED 0, and [main] does not return. *)
Theorem startup_zeroing_best_effort (P N : Z) (l0 l1 l2 l3 : pwm_dt_spec)
    (rdy : device -> bool) (drv : nat -> pwm_dt_spec -> Z -> Z -> Z)
    (n : nat) :
  first_not_ready rdy [l0; l1; l2; l3] 0 = None ->
  let banner := EvPrintk "PWM Fading Blinky Sample for nRF5340 DK\n" [] in
  let r := main P N l0 l1 l2 l3 rdy drv (S n) 0%nat in
  let cycling := cycle_loop P N l0 l1 l2 l3 drv (S n) 0 4%nat in
  value r = None /\
  events r = banner :: ready_events [l0; l1; l2; l3] 0 ++
             [EvPwmSet l0 P 0 (drv 0%nat l0 P 0);
              EvPwmSet l1 P 0 (drv 1%nat l1 P 0);
              EvPwmSet l2 P 0 (drv 2%nat l2 P 0);
              EvPwmSet l3 P 0 (drv 3%nat l3 P 0)] ++
             events cycling /\
  hd_error (events cycling) = Some (EvPrintk "Fading LED %d\n" [ArgInt 0]).
Proof.
  intros Hready banner r cycling. subst banner r cycling.
  rewrite main_run, Hready. cbv zeta. cbn [value events calls zeroing_events].
  split; [reflexivity|]. split; [reflexivity|].
  cbn [cycle_loop]. unfold bind at 1. rewrite cycle_body_run.
  reflexivity.
Qed.

Lemma startup_zeroing_best_effort_witness :
  let r := main 1000 100 Nrf5340dk.pwm_led0 Nrf5340dk.pwm_led1
                Nrf5340dk.pwm_led2 Nrf5340dk.pwm_led3
                Nrf5340dk.all_ready Nrf5340dk.dead 1 0%nat in
  value r = None /\
  firstn 5 (skipn 9 (events r))
  = [EvPwmSet Nrf5340dk.pwm_led0 1000 0 (-5);
     EvPwmSet Nrf5340dk.pwm_led1 1000 0 (-5);
     EvPwmSet Nrf5340dk.pwm_led2 1000 0 (-5);
     EvPwmSet Nrf5340dk.pwm_led3 1000 0 (-5);
     EvPrintk "Fading LED %d\n" [ArgInt 0]].
Proof.
  destruct (startup_zeroing_best_effort 1000 100
              Nrf5340dk.pwm_led0 Nrf5340dk.pwm_led1
              Nrf5340dk.pwm_led2 Nrf5340dk.pwm_led3
              Nrf5340dk.all_ready Nrf5340dk.dead 0 eq_refl)
    as (Hval & Hev & _).
  split; [exact Hval|]. rewrite Hev. vm_compute. reflexivity.
Defined.


(** ** Further properties of the interpolation *)

Lemma div_step_between (a p n : Z) :
  0 < n -> 0 <= a -> 0 <= p ->
  p / n <= (a + p) / n - a / n <= p / n + 1.
Proof.
  intros Hn Ha Hp.
  pose proof (Z.div_mod a n ltac:(lia)) as Ea.
  pose proof (Z.div_mod p n ltac:(lia)) as Ep.
  pose proof (Z.mod_pos_bound a n Hn) as Ba.
  pose proof (Z.mod_pos_bound p n Hn) as Bp.
  replace (a + p) with ((a / n + p / n) * n + (a mod n + p mod n)) by lia.
  rewrite Z.div_add_l by lia.
  assert (0 <= (a mod n + p mod n) / n < 2).
  { split.
    - apply Z.div_pos; lia.
    - apply Z.div_lt_upper_bound; lia. }
  lia.
Qed.

(** X4.  When the step count divides the period and the product does not wrap,
    the ramp is exactly linear: step [s] of a fade-in writes [s] times the
    quotient and step [s] of a fade-out writes the period less that. *)
Theorem fade_pulse_width_uniform (P N q s : Z) :
  config_in_range P N -> P * N < 2 ^ 32 -> P = q * N -> 0 <= s <= N ->
  fade_pulse_width P N true s = q * s /\
  fade_pulse_width P N false s = P - q * s.
Proof.
  intros Hcfg Hprod Hq Hs.
  rewrite !fade_pulse_width_exact by assumption.
  destruct Hcfg as [HP HN]. subst P. split.
  - replace (q * N * s) with (q * s * N) by lia. apply Z.div_mul. lia.
  - replace (q * N * (N - s)) with ((q * N - q * s) * N) by lia.
    apply Z.div_mul. lia.
Qed.

Lemma fade_pulse_width_uniform_witness :
  fade_pulse_width 1000 100 true 37 = 10 * 37 /\
  fade_pulse_width 1000 100 false 37 = 1000 - 10 * 37.
Proof.
  apply (fade_pulse_width_uniform 1000 100 10 37).
  - unfold config_in_range. lia.
  - lia.
  - reflexivity.
  - lia.
Defined.

(** X5.  Without wrap-around two consecutive steps of a ramp differ by the
    truncated quotient of period and step count or by one more: up for a
    fade-in, down for a fade-out. *)
Theorem fade_pulse_width_step_size (P N s : Z) :
  config_in_range P N -> P * N < 2 ^ 32 -> 0 <= s < N ->
  P / N <= fade_pulse_width P N true (s + 1) - fade_pulse_width P N true s
        <= P / N + 1 /\
  P / N <= fade_pulse_width P N false s - fade_pulse_width P N false (s + 1)
        <= P / N + 1.
Proof.
  intros Hcfg Hprod Hs.
  rewrite !fade_pulse_width_exact by (auto; lia).
  destruct Hcfg as [HP HN]. split.
  - replace (P * (s + 1)) with (P * s + P) by lia.
    apply div_step_between; nia.
  - replace (P * (N - s)) with (P * (N - (s + 1)) + P) by lia.
    apply div_step_between; nia.
Qed.

Lemma fade_pulse_width_step_size_witness :
  1000 / 3 <= fade_pulse_width 1000 3 true (2 + 1) - fade_pulse_width 1000 3 true 2
           <= 1000 / 3 + 1 /\
  1000 / 3 <= fade_pulse_width 1000 3 false 2 - fade_pulse_width 1000 3 false (2 + 1)
           <= 1000 / 3 + 1.
Proof.
  apply (fade_pulse_width_step_size 1000 3 2).
  - unfold config_in_range. lia.
  - lia.
  - lia.
Defined.

(** X6.  For a period and a step count representable in the C types, the last
    step of a fade-in (and the first of a fade-out) writes exactly the period
    if and only if their product fits in 32 bits; when it does not, the value
    written is strictly smaller. *)
Theorem fade_endpoint_exact_iff (P N : Z) :
  config_in_range P N ->
  (fade_pulse_width P N true N = P <-> P * N < 2 ^ 32) /\
  (fade_pulse_width P N false 0 = P <-> P * N < 2 ^ 32) /\
  (2 ^ 32 <= P * N -> fade_pulse_width P N true N < P).
Proof.
  intros Hcfg.
  assert (Hwrap : 2 ^ 32 <= P * N -> u32 (P * N) / N < P).
  { intros Hbig. destruct Hcfg as [HP HN].
    apply Z.div_lt_upper_bound; [lia|].
    pose proof (u32_range (P * N)). lia. }
  assert (Hin : fade_pulse_width P N true N = u32 (P * N) / N).
  { destruct Hcfg as [HP HN]. rewrite fade_pulse_width_steps by lia.
    reflexivity. }
  assert (Hout : fade_pulse_width P N false 0 = u32 (P * N) / N).
  { destruct Hcfg as [HP HN]. rewrite fade_pulse_width_steps by lia.
    now rewrite Z.sub_0_r. }
  assert (Hexact : P * N < 2 ^ 32 -> u32 (P * N) / N = P).
  { intros Hsmall. destruct Hcfg as [HP HN].
    rewrite u32_small by nia. apply Z.div_mul. lia. }
  rewrite Hin, Hout.
  split; [|split].
  - split; [|exact Hexact].
    intros Heq. destruct (Z.lt_ge_cases (P * N) (2 ^ 32)) as [|Hbig]; [assumption|].
    specialize (Hwrap Hbig). lia.
  - split; [|exact Hexact].
    intros Heq. destruct (Z.lt_ge_cases (P * N) (2 ^ 32)) as [|Hbig]; [assumption|].
    specialize (Hwrap Hbig). lia.
  - exact Hwrap.
Qed.

Lemma fade_endpoint_exact_iff_witness :
  fade_pulse_width 1000000 5000 true 5000 < 1000000.
Proof.
  destruct (fade_endpoint_exact_iff 1000000 5000) as (_ & _ & H).
  - unfold config_in_range. lia.
  - apply H. lia.
Defined.

(** X7.  [set_led_brightness] with any period representable in [unsigned int]:
    a brightness of at most 100 never yields a pulse width beyond the period,
    even when the product wraps; brightness 0 yields 0. *)
Theorem brightness_pulse_width_bounds (P b : Z) :
  0 <= P < 2 ^ 32 -> 0 <= b <= 100 ->
  0 <= brightness_pulse_width P b <= P /\ brightness_pulse_width P 0 = 0.
Proof.
  intros HP Hb. unfold brightness_pulse_width, u8.
  rewrite (Z.mod_small b) by lia. rewrite (u32_small b) by lia.
  split; [split|].
  - apply Z.div_pos; [apply u32_range | lia].
  - apply Z.div_le_upper_bound; [lia|].
    transitivity (P * b); [apply u32_le; nia | nia].
  - rewrite Z.mod_0_l by lia. rewrite (u32_small 0) by lia.
    rewrite Z.mul_0_r. reflexivity.
Qed.

Lemma brightness_pulse_width_bounds_witness :
  0 <= brightness_pulse_width 4000000000 60 <= 4000000000 /\
  brightness_pulse_width 4000000000 0 = 0.
Proof.
  apply (brightness_pulse_width_bounds 4000000000 60); lia.
Defined.

(** X8.  When 255 times the period fits in 32 bits, the pulse width computed by
    [set_led_brightness] is the truncated percentage of the period: it grows
    with the brightness and equals the period at brightness 100. *)
Theorem brightness_pulse_width_exact (P b b' : Z) :
  0 <= P -> P * 255 < 2 ^ 32 -> 0 <= b <= b' -> b' <= 255 ->
  brightness_pulse_width P b = P * b / 100 /\
  brightness_pulse_width P b <= brightness_pulse_width P b' /\
  brightness_pulse_width P 100 = P.
Proof.
  intros HP Hprod Hb Hb'.
  assert (Hexact : forall x, 0 <= x <= 255 ->
                             brightness_pulse_width P x = P * x / 100).
  { intros x Hx. unfold brightness_pulse_width, u8.
    rewrite (Z.mod_small x) by lia. rewrite (u32_small x) by lia.
    rewrite u32_small by nia. reflexivity. }
  rewrite !Hexact by lia. split; [reflexivity|]. split.
  - apply Z.div_le_mono; nia.
  - apply Z.div_mul. lia.
Qed.

Lemma brightness_pulse_width_exact_witness :
  brightness_pulse_width 1000 33 = 1000 * 33 / 100 /\
  brightness_pulse_width 1000 33 <= brightness_pulse_width 1000 34 /\
  brightness_pulse_width 1000 100 = 1000.
Proof.
  apply (brightness_pulse_width_exact 1000 33 34); lia.
Defined.

(** ** The shape of every ramp *)

Lemma total_sleep_app (l1 l2 : list event) :
  total_sleep (l1 ++ l2) = total_sleep l1 + total_sleep l2.
Proof.
  induction l1 as [|e l1 IH]; [reflexivity|].
  destruct e; cbn [app total_sleep]; rewrite IH; lia.
Qed.

Lemma accepted_writes_app (l1 l2 : list event) :
  accepted_writes (l1 ++ l2) = (accepted_writes l1 + accepted_writes l2)%nat.
Proof.
  induction l1 as [|e l1 IH]; [reflexivity|].
  destruct e as [fmt args|d rd|spec p pw r|ms];
    cbn [app accepted_writes]; rewrite IH; try reflexivity.
  destruct (r <? 0); reflexivity.
Qed.

Section RampShape.

Variables P N : Z.
Variable driver : nat -> pwm_dt_spec -> Z -> Z -> Z.
Variable led : pwm_dt_spec.
Variable fade_in : bool.

Local Abbreviation pulse := (fade_pulse_width P N fade_in).
Local Abbreviation loop := (fade_led_loop P N driver).
Local Abbreviation steps := (ok_steps P N driver led fade_in).
Local Abbreviation ret_at := (step_ret P N driver led fade_in).

(** What a rejected write at [step] leaves in the trace. *)
Local Abbreviation failure step c :=
  [EvPwmSet led P (pulse step) (ret_at step c);
   EvPrintk "Error setting PWM: %d\n" [ArgInt (ret_at step c)]].

Lemma fade_led_loop_shape (iters : nat) :
  forall step c,
    N + 1 - step <= Z.of_nat iters -> step <= N + 1 ->
    exists m : nat,
      step + Z.of_nat m <= N + 1 /\
      (forall j, (j < m)%nat ->
                 0 <= ret_at (step + Z.of_nat j) (c + j)%nat) /\
      ((step + Z.of_nat m = N + 1 /\
        loop iters led fade_in step c =
        {| value := tt; events := steps m step c; calls := (c + m)%nat |})
       \/
       (step + Z.of_nat m <= N /\
        ret_at (step + Z.of_nat m) (c + m)%nat < 0 /\
        loop iters led fade_in step c =
        {| value := tt;
           events := steps m step c ++ failure (step + Z.of_nat m) (c + m)%nat;
           calls := S (c + m) |})).
Proof.
  induction iters as [|iters IH]; intros step c Hrem Hstep.
  - exists 0%nat. split; [lia|]. split; [intros j Hj; lia|].
    left. split; [lia|]. cbn. now rewrite Nat.add_0_r.
  - destruct (Z.le_gt_cases step N) as [Hle|Hgt].
    + destruct (Z.lt_ge_cases (ret_at step c) 0) as [Hfail|Hok].
      * exists 0%nat. split; [lia|]. split; [intros j Hj; lia|].
        right. rewrite Z.add_0_r, Nat.add_0_r.
        split; [lia|]. split; [exact Hfail|].
        now rewrite fade_led_loop_fail.
      * destruct (IH (step + 1) (S c)) as (m & Hm & Hacc & Hcase); [lia|lia|].
        exists (S m). split; [lia|]. split.
        { intros j Hj. destruct j as [|j].
          - now rewrite Z.add_0_r, Nat.add_0_r.
          - replace (step + Z.of_nat (S j)) with (step + 1 + Z.of_nat j) by lia.
            replace (c + S j)%nat with (S c + j)%nat by lia.
            apply Hacc. lia. }
        replace (step + Z.of_nat (S m)) with (step + 1 + Z.of_nat m) by lia.
        replace (c + S m)%nat with (S c + m)%nat by lia.
        rewrite fade_led_loop_ok by assumption.
        destruct Hcase as [(Hend & ->)|(Hin & Hfail & ->)].
        -- left. split; [exact Hend|]. reflexivity.
        -- right. split; [exact Hin|]. split; [exact Hfail|]. reflexivity.
    + exists 0%nat. split; [lia|]. split; [intros j Hj; lia|].
      left. split; [lia|]. rewrite fade_led_loop_done by lia.
      cbn [ok_steps]. now rewrite Nat.add_0_r.
Qed.

Lemma ok_steps_sleep (m : nat) :
  forall step c, total_sleep (steps m step c) = FADE_STEP_MS * Z.of_nat m.
Proof.
  induction m as [|m IH]; intros step c; [reflexivity|].
  cbn [ok_steps total_sleep]. rewrite IH. lia.
Qed.

Lemma ok_steps_accepted (m : nat) :
  forall step c,
    (forall j, (j < m)%nat -> 0 <= ret_at (step + Z.of_nat j) (c + j)%nat) ->
    accepted_writes (steps m step c) = m.
Proof.
  induction m as [|m IH]; intros step c Hacc; [reflexivity|].
  cbn [ok_steps accepted_writes].
  pose proof (Hacc 0%nat ltac:(lia)) as H0.
  rewrite Z.add_0_r, Nat.add_0_r in H0. unfold step_ret in H0.
  apply Z.ltb_ge in H0. rewrite H0. f_equal.
  apply IH. intros j Hj.
  replace (step + 1 + Z.of_nat j) with (step + Z.of_nat (S j)) by lia.
  replace (S c + j)%nat with (c + S j)%nat by lia.
  apply Hacc. lia.
Qed.

End RampShape.

(** X1.  For a period and a step count representable in the C types and
    whatever the driver answers, a [fade_led] call has one of two shapes.
    Either all [stepCount + 1] writes are accepted, each followed by the step
    delay; or the writes of steps [0 .. m - 1] are accepted, the write of step
    [m] is rejected, its code is printed and nothing follows. *)
Theorem fade_led_complete_or_first_failure (P N : Z)
    (driver : nat -> pwm_dt_spec -> Z -> Z -> Z)
    (led : pwm_dt_spec) (fade_in : bool) (c : nat) :
  config_in_range P N ->
  exists m : nat,
    (forall j, (j < m)%nat ->
               0 <= step_ret P N driver led fade_in (Z.of_nat j) (c + j)%nat) /\
    ((Z.of_nat m = N + 1 /\
      fade_led P N driver led fade_in c =
      {| value := tt;
         events := ok_steps P N driver led fade_in m 0 c;
         calls := (c + m)%nat |})
     \/
     (Z.of_nat m <= N /\
      step_ret P N driver led fade_in (Z.of_nat m) (c + m)%nat < 0 /\
      fade_led P N driver led fade_in c =
      {| value := tt;
         events :=
           ok_steps P N driver led fade_in m 0 c ++
           [EvPwmSet led P (fade_pulse_width P N fade_in (Z.of_nat m))
                     (step_ret P N driver led fade_in (Z.of_nat m) (c + m)%nat);
            EvPrintk "Error setting PWM: %d\n"
                     [ArgInt (step_ret P N driver led fade_in
                                       (Z.of_nat m) (c + m)%nat)]];
         calls := S (c + m) |})).
Proof.
  intros [_ HN]. unfold fade_led.
  destruct (fade_led_loop_shape P N driver led fade_in
              (Z.to_nat (N + 1)) 0 c) as (m & Hm & Hacc & Hcase); [lia|lia|].
  exists m. split; [exact Hacc|].
  rewrite !Z.add_0_l in Hcase. exact Hcase.
Qed.

Lemma fade_led_complete_or_first_failure_witness :
  let drv := Nrf5340dk.failing_at 9 in
  let led := Nrf5340dk.pwm_led0 in
  exists m : nat,
    (forall j, (j < m)%nat ->
               0 <= step_ret 1000 100 drv led true (Z.of_nat j) (7 + j)%nat) /\
    ((Z.of_nat m = 100 + 1 /\
      fade_led 1000 100 drv led true 7%nat =
      {| value := tt;
         events := ok_steps 1000 100 drv led true m 0 7%nat;
         calls := (7 + m)%nat |})
     \/
     (Z.of_nat m <= 100 /\
      step_ret 1000 100 drv led true (Z.of_nat m) (7 + m)%nat < 0 /\
      fade_led 1000 100 drv led true 7%nat =
      {| value := tt;
         events :=
           ok_steps 1000 100 drv led true m 0 7%nat ++
           [EvPwmSet led 1000 (fade_pulse_width 1000 100 true (Z.of_nat m))
                     (step_ret 1000 100 drv led true (Z.of_nat m) (7 + m)%nat);
            EvPrintk "Error setting PWM: %d\n"
                     [ArgInt (step_ret 1000 100 drv led true
                                       (Z.of_nat m) (7 + m)%nat)]];
         calls := S (7 + m) |})).
Proof.
  apply (fade_led_complete_or_first_failure 1000 100
           (Nrf5340dk.failing_at 9) Nrf5340dk.pwm_led0 true 7%nat).
  unfold config_in_range. lia.
Defined.

(** Counts of writes, accepted writes and step delays of one ramp. *)
Lemma fade_led_counts (P N : Z)
    (driver : nat -> pwm_dt_spec -> Z -> Z -> Z)
    (led : pwm_dt_spec) (fade_in : bool) (c : nat) :
  0 <= N ->
  let r := fade_led P N driver led fade_in c in
  let writes := List.length (pwm_writes (events r)) in
  1 <= Z.of_nat writes <= N + 1 /\
  calls r = (c + writes)%nat /\
  (writes - 1 <= accepted_writes (events r) <= writes)%nat /\
  total_sleep (events r)
  = FADE_STEP_MS * Z.of_nat (accepted_writes (events r)).
Proof.
  intros HN r writes. subst writes r.
  destruct (fade_led_loop_shape P N driver led fade_in
              (Z.to_nat (N + 1)) 0 c) as (m & Hm & Hacc & Hcase); [lia|lia|].
  pose proof (ok_steps_accepted P N driver led fade_in m 0 c Hacc) as Hok.
  unfold fade_led.
  destruct Hcase as [(Hend & ->)|(Hin & Hfail & ->)]; cbn [events calls].
  - rewrite ok_steps_writes, Hok, ok_steps_sleep. repeat split; lia.
  - rewrite pwm_writes_app, length_app, ok_steps_writes.
    rewrite accepted_writes_app, total_sleep_app, Hok, ok_steps_sleep.
    cbn [accepted_writes total_sleep pwm_writes filter is_pwm_set List.length].
    unfold step_ret in Hfail. apply Z.ltb_lt in Hfail.
    unfold step_ret. rewrite Hfail.
    cbn [accepted_writes]. repeat split; lia.
Qed.

(** X2.  For a period and a step count representable in the C types and
    whatever the driver answers, a [fade_led] call makes at least one and at
    most [stepCount + 1] driver calls, of which at most the last one is
    rejected, and it sleeps the step delay exactly once per accepted write. *)
Theorem fade_led_accounting (P N : Z)
    (driver : nat -> pwm_dt_spec -> Z -> Z -> Z)
    (led : pwm_dt_spec) (fade_in : bool) (c : nat) :
  config_in_range P N ->
  let r := fade_led P N driver led fade_in c in
  let writes := List.length (pwm_writes (events r)) in
  1 <= Z.of_nat writes <= N + 1 /\
  calls r = (c + writes)%nat /\
  (writes - 1 <= accepted_writes (events r) <= writes)%nat /\
  total_sleep (events r)
  = FADE_STEP_MS * Z.of_nat (accepted_writes (events r)).
Proof.
  intros [_ HN]. apply fade_led_counts. lia.
Qed.

Lemma fade_led_accounting_witness :
  let r := fade_led 1000 100 (Nrf5340dk.failing_at 9)
                    Nrf5340dk.pwm_led0 true 7%nat in
  calls r = (7 + List.length (pwm_writes (events r)))%nat /\
  total_sleep (events r)
  = FADE_STEP_MS * Z.of_nat (accepted_writes (events r)).
Proof.
  destruct (fade_led_accounting 1000 100 (Nrf5340dk.failing_at 9)
              Nrf5340dk.pwm_led0 true 7%nat) as (_ & Hc & _ & Hs);
    [unfold config_in_range; lia|].
  split; [exact Hc | exact Hs].
Defined.

(** ** Fade-out against fade-in *)

Lemma zrange_shift (m : nat) :
  forall a, zrange (a + 1) m = map (fun s => s + 1) (zrange a m).
Proof.
  induction m as [|m IH]; intros a; [reflexivity|].
  cbn [zrange map]. now rewrite IH.
Qed.

Lemma rev_zrange (m : nat) :
  forall a,
    rev (zrange a m) = map (fun s => 2 * a + Z.of_nat m - 1 - s) (zrange a m).
Proof.
  induction m as [|m IH]; intros a; [reflexivity|].
  rewrite zrange_snoc at 1. rewrite rev_app_distr. cbn [rev app].
  rewrite IH. cbn [zrange map]. f_equal; [lia|].
  rewrite zrange_shift, map_map. apply map_ext. intros s. lia.
Qed.

(** X3.  A fade-out none of whose writes fails applies the pulse widths of a
    fade-in none of whose writes fails in the opposite order, for every
    period and step count representable in the C types, wrap-around of the
    product included. *)
Theorem fade_out_reverses_fade_in (P N : Z)
    (driver : nat -> pwm_dt_spec -> Z -> Z -> Z)
    (led : pwm_dt_spec) (c c' : nat) :
  config_in_range P N ->
  (forall j, (j <= Z.to_nat N)%nat ->
             0 <= step_ret P N driver led true (Z.of_nat j) (c + j)%nat) ->
  (forall j, (j <= Z.to_nat N)%nat ->
             0 <= step_ret P N driver led false (Z.of_nat j) (c' + j)%nat) ->
  applied_pulses (events (fade_led P N driver led false c'))
  = rev (applied_pulses (events (fade_led P N driver led true c))).
Proof.
  intros [_ Hrange] Hin Hout.
  assert (HN : 0 <= N) by lia.
  rewrite (fade_led_succeeds P N driver led true c) by assumption.
  rewrite (fade_led_succeeds P N driver led false c') by assumption.
  cbn [events]. rewrite !ok_steps_pulses.
  rewrite <- map_rev, rev_zrange, map_map.
  apply map_ext. intros s.
  replace (2 * 0 + Z.of_nat (S (Z.to_nat N)) - 1 - s) with (N - s) by lia.
  reflexivity.
Qed.

Lemma fade_out_reverses_fade_in_witness :
  applied_pulses
    (events (fade_led 1000 3 Nrf5340dk.working Nrf5340dk.pwm_led0 false 4%nat))
  = rev (applied_pulses
           (events (fade_led 1000 3 Nrf5340dk.working
                             Nrf5340dk.pwm_led0 true 0%nat))).
Proof.
  apply (fade_out_reverses_fade_in 1000 3 Nrf5340dk.working
                                   Nrf5340dk.pwm_led0 0%nat 4%nat).
  - unfold config_in_range. lia.
  - intros j _. vm_compute. discriminate.
  - intros j _. vm_compute. discriminate.
Defined.

(** ** The cycling loop *)

Lemma applied_pulses_ready_events (ls : list pwm_dt_spec) :
  forall i, applied_pulses (ready_events ls i) = [].
Proof.
  induction ls as [|l ls IH]; intros i; [reflexivity|].
  cbn [ready_events applied_pulses]. apply IH.
Qed.

Section Cycling.

Variables P N : Z.
Variables l0 l1 l2 l3 : pwm_dt_spec.
Variable drv : nat -> pwm_dt_spec -> Z -> Z -> Z.

Local Abbreviation body := (cycle_body P N l0 l1 l2 l3 drv).
Local Abbreviation passes := (cycle_loop P N l0 l1 l2 l3 drv).
Local Abbreviation led_at := (pwm_leds_at l0 l1 l2 l3).

Lemma cycle_body_value (current_led : Z) (c : nat) :
  value (body current_led c) = u32 (current_led + 1) mod 4.
Proof. rewrite cycle_body_run. reflexivity. Qed.

Lemma cycle_loop_value (n : nat) :
  forall current_led c,
    0 <= current_led < 4 ->
    value (passes n current_led c) = (current_led + Z.of_nat n) mod 4.
Proof.
  induction n as [|n IH]; intros cur c Hcur.
  - cbn. rewrite Z.add_0_r. symmetry. apply Z.mod_small. exact Hcur.
  - cbn [cycle_loop]. unfold bind. cbn [value].
    rewrite IH by (rewrite cycle_body_value; apply Z.mod_pos_bound; lia).
    rewrite cycle_body_value, u32_small by lia.
    rewrite Zplus_mod_idemp_l. f_equal. lia.
Qed.

(** One more pass is a pass after the others. *)
Lemma cycle_loop_snoc (n : nat) :
  forall current_led c,
    passes (S n) current_led c =
    let r := passes n current_led c in
    let r' := body (value r) (calls r) in
    {| value := value r'; events := events r ++ events r'; calls := calls r' |}.
Proof.
  induction n as [|n IH]; intros cur c.
  - cbn [cycle_loop]. unfold bind, ret. cbn [value events calls app].
    rewrite app_nil_r. destruct (body cur c); reflexivity.
  - change (passes (S (S n)) cur c)
      with (bind (body cur) (fun next => passes (S n) next) c).
    unfold bind at 1. rewrite IH. cbv zeta.
    cbn [cycle_loop]. unfold bind. cbn [value events calls].
    now rewrite app_assoc.
Qed.

Lemma fade_led_loop_targets (led : pwm_dt_spec) (fade_in : bool)
    (iters : nat) :
  forall step c,
    Forall (writes_to led P)
           (events (fade_led_loop P N drv iters led fade_in step c)).
Proof.
  induction iters as [|iters IH]; intros step c; [constructor|].
  cbn [fade_led_loop]. destruct (step <=? N); [|constructor].
  unfold bind at 1. cbn [pwm_set_dt value events calls app].
  constructor; [cbn; auto|].
  destruct (_ <? 0).
  - cbn. constructor; [exact I | constructor].
  - unfold bind. cbn [k_msleep value events calls app].
    constructor; [exact I | apply IH].
Qed.

Lemma fade_led_pulses_in_range (led : pwm_dt_spec) (fade_in : bool)
    (c : nat) :
  config_in_range P N ->
  Forall (fun pw => 0 <= pw <= P)
         (applied_pulses (events (fade_led P N drv led fade_in c))).
Proof.
  intros Hcfg.
  assert (HN : 0 <= N) by (destruct Hcfg; lia).
  destruct (fade_led_pulses P N drv led fade_in c HN) as (m & Hm & ->).
  apply Forall_forall. intros pw Hin.
  apply in_map_iff in Hin. destruct Hin as (t & <- & Ht).
  apply zrange_In in Ht.
  apply fade_pulse_width_bounds; [assumption | lia].
Qed.

Lemma cycle_loop_pulses_in_range (n : nat) :
  config_in_range P N ->
  forall current_led c,
    Forall (fun pw => 0 <= pw <= P)
           (applied_pulses (events (passes n current_led c))).
Proof.
  intros Hcfg. induction n as [|n IH]; intros cur c; [constructor|].
  cbn [cycle_loop]. unfold bind. cbn [events].
  rewrite applied_pulses_app. apply Forall_app. split; [|apply IH].
  rewrite cycle_body_run. cbn [events applied_pulses].
  rewrite applied_pulses_app. cbn [applied_pulses].
  rewrite applied_pulses_app. cbn [applied_pulses]. rewrite app_nil_r.
  apply Forall_app. split; apply fade_led_pulses_in_range; assumption.
Qed.

End Cycling.

(** X9.  The LED index of the endless loop walks round the table: started at a
    valid index it is [(start + n) mod 4] after [n] passes, so it stays a
    valid index of [pwm_leds] and is back at its start after four passes. *)
Theorem cycle_loop_index (P N : Z) (l0 l1 l2 l3 : pwm_dt_spec)
    (drv : nat -> pwm_dt_spec -> Z -> Z -> Z)
    (n : nat) (current_led : Z) (c : nat) :
  0 <= current_led < 4 ->
  let after k := value (cycle_loop P N l0 l1 l2 l3 drv k current_led c) in
  after n = (current_led + Z.of_nat n) mod 4 /\
  0 <= after n < NUM_LEDS l0 l1 l2 l3 /\
  after 4%nat = current_led /\
  after (n + 4)%nat = after n.
Proof.
  intros Hcur after. subst after. cbv beta.
  rewrite !cycle_loop_value by assumption.
  change (NUM_LEDS l0 l1 l2 l3) with 4.
  split; [reflexivity|]. split; [apply Z.mod_pos_bound; lia|]. split.
  - change (Z.of_nat 4) with (1 * 4). rewrite Z.mod_add by lia.
    apply Z.mod_small. exact Hcur.
  - replace (current_led + Z.of_nat (n + 4))
      with (current_led + Z.of_nat n + 1 * 4) by lia.
    apply Z.mod_add. lia.
Qed.

Lemma cycle_loop_index_witness :
  value (cycle_loop 1000 100 Nrf5340dk.pwm_led0 Nrf5340dk.pwm_led1
                    Nrf5340dk.pwm_led2 Nrf5340dk.pwm_led3
                    Nrf5340dk.dead 6 3 4%nat) = (3 + 6) mod 4.
Proof.
  apply (cycle_loop_index 1000 100 Nrf5340dk.pwm_led0 Nrf5340dk.pwm_led1
                          Nrf5340dk.pwm_led2 Nrf5340dk.pwm_led3
                          Nrf5340dk.dead 6 3 4%nat).
  lia.
Defined.

(** X10.  Pass number [n] of the loop of [main] (counted from 0) comes after the
    passes before it, announces LED [n mod 4] and runs the two ramps on that
    entry of [pwm_leds], whatever the driver answered before. *)
Theorem cycle_loop_nth_pass (P N : Z) (l0 l1 l2 l3 : pwm_dt_spec)
    (drv : nat -> pwm_dt_spec -> Z -> Z -> Z) (n : nat) (c : nat) :
  let before := cycle_loop P N l0 l1 l2 l3 drv n 0 c in
  let led := nth (n mod 4) [l0; l1; l2; l3] l0 in
  let r_in := fade_led P N drv led true (calls before) in
  let r_out := fade_led P N drv led false (calls r_in) in
  events (cycle_loop P N l0 l1 l2 l3 drv (S n) 0 c)
  = events before ++
    EvPrintk "Fading LED %d\n" [ArgInt (Z.of_nat (n mod 4))]
    :: events r_in ++ EvSleep 200 :: events r_out ++ [EvSleep 100].
Proof.
  cbv zeta. rewrite cycle_loop_snoc. cbv zeta. cbn [events].
  rewrite cycle_loop_value by lia. rewrite cycle_body_run. cbv zeta.
  cbn [events]. rewrite Z.add_0_l.
  replace (Z.of_nat n mod 4) with (Z.of_nat (n mod 4))
    by (rewrite Nat2Z.inj_mod; reflexivity).
  unfold pwm_leds_at, pwm_leds. rewrite Nat2Z.id. reflexivity.
Qed.

(** X11.  One pass of the loop addresses no LED but its own, and always with the
    period [PWM_PERIOD_US], whatever the driver answers. *)
Theorem cycle_body_targets (P N : Z) (l0 l1 l2 l3 : pwm_dt_spec)
    (drv : nat -> pwm_dt_spec -> Z -> Z -> Z)
    (current_led : Z) (c : nat) :
  Forall (writes_to (pwm_leds_at l0 l1 l2 l3 current_led) P)
         (events (cycle_body P N l0 l1 l2 l3 drv current_led c)).
Proof.
  rewrite cycle_body_run. cbv zeta. cbn [events].
  constructor; [exact I|].
  apply Forall_app. split; [apply fade_led_loop_targets|].
  constructor; [exact I|].
  apply Forall_app. split; [apply fade_led_loop_targets|].
  constructor; [exact I | constructor].
Qed.

(** X12.  For a period and a step count representable in the C types, every pulse
    width [main] ever hands to the driver lies in [0 .. PWM_PERIOD_US],
    for every readiness of the devices, every driver and every number of
    passes. *)
Theorem main_pulses_in_range (P N : Z) (l0 l1 l2 l3 : pwm_dt_spec)
    (rdy : device -> bool) (drv : nat -> pwm_dt_spec -> Z -> Z -> Z)
    (n : nat) :
  config_in_range P N ->
  Forall (fun pw => 0 <= pw <= P)
         (applied_pulses (events (main P N l0 l1 l2 l3 rdy drv n 0%nat))).
Proof.
  intros Hcfg. rewrite main_run. cbv zeta.
  destruct (first_not_ready rdy [l0; l1; l2; l3] 0) as [i|]; cbn [events].
  - cbn [applied_pulses]. rewrite applied_pulses_app.
    rewrite applied_pulses_ready_events. constructor.
  - cbn [applied_pulses]. rewrite applied_pulses_app.
    rewrite applied_pulses_ready_events. cbn [app].
    cbn [zeroing_events applied_pulses app].
    assert (H0 : 0 <= 0 <= P) by (destruct Hcfg; lia).
    do 4 (constructor; [exact H0|]).
    apply cycle_loop_pulses_in_range. exact Hcfg.
Qed.

Lemma main_pulses_in_range_witness :
  Forall (fun pw => 0 <= pw <= 1000)
         (applied_pulses
            (events (main 1000 100 Nrf5340dk.pwm_led0 Nrf5340dk.pwm_led1
                          Nrf5340dk.pwm_led2 Nrf5340dk.pwm_led3
                          Nrf5340dk.all_ready (Nrf5340dk.failing_at 50)
                          3 0%nat))).
Proof.
  apply (main_pulses_in_range 1000 100).
  unfold config_in_range. lia.
Defined.

(** ** Duration of the cycle *)

Section Duration.

Variables P N : Z.
Variables l0 l1 l2 l3 : pwm_dt_spec.
Variable drv : nat -> pwm_dt_spec -> Z -> Z -> Z.
Hypothesis HN : 0 <= N.
Hypothesis Hdrv : forall k spec p pw, 0 <= drv k spec p pw.

Lemma fade_led_never_failing (led : pwm_dt_spec) (fade_in : bool) (c : nat) :
  fade_led P N drv led fade_in c =
  {| value := tt;
     events := ok_steps P N drv led fade_in (S (Z.to_nat N)) 0 c;
     calls := (c + S (Z.to_nat N))%nat |}.
Proof.
  apply fade_led_succeeds; [exact HN|].
  intros j _. unfold step_ret. apply Hdrv.
Qed.

Lemma cycle_loop_never_failing (n : nat) :
  forall current_led c,
    let r := cycle_loop P N l0 l1 l2 l3 drv n current_led c in
    total_sleep (events r)
    = Z.of_nat n * (2 * (FADE_STEP_MS * (N + 1)) + 300) /\
    calls r = (c + n * (2 * S (Z.to_nat N)))%nat.
Proof.
  induction n as [|n IH]; intros cur c; cbv zeta.
  - cbn. split; lia.
  - cbn [cycle_loop]. unfold bind. cbn [events calls].
    destruct (IH (value (cycle_body P N l0 l1 l2 l3 drv cur c))
                 (calls (cycle_body P N l0 l1 l2 l3 drv cur c))) as [Hs Hc].
    rewrite Hc, total_sleep_app, Hs.
    rewrite cycle_body_run. cbv zeta. cbn [events calls].
    rewrite !fade_led_never_failing. cbn [events calls total_sleep].
    rewrite total_sleep_app. cbn [total_sleep].
    rewrite total_sleep_app. cbn [total_sleep].
    rewrite !ok_steps_sleep. unfold FADE_STEP_MS. split; nia.
Qed.

End Duration.

(** X13.  For a period and a step count representable in the C types and
    with a driver that accepts every write, each pass of the loop sleeps
    twice [stepCount + 1] step delays plus the 200 ms hold and the 100 ms
    pause, and makes twice [stepCount + 1] driver calls; [n] passes take [n]
    times as much. *)
Theorem cycle_loop_duration (P N : Z) (l0 l1 l2 l3 : pwm_dt_spec)
    (drv : nat -> pwm_dt_spec -> Z -> Z -> Z)
    (n : nat) (current_led : Z) (c : nat) :
  config_in_range P N ->
  (forall k spec p pw, 0 <= drv k spec p pw) ->
  let r := cycle_loop P N l0 l1 l2 l3 drv n current_led c in
  total_sleep (events r)
  = Z.of_nat n * (2 * (FADE_STEP_MS * (N + 1)) + 300) /\
  Z.of_nat (calls r) = Z.of_nat c + Z.of_nat n * (2 * (N + 1)).
Proof.
  intros [_ Hrange] Hdrv r. subst r.
  assert (HN : 0 <= N) by lia.
  destruct (cycle_loop_never_failing P N l0 l1 l2 l3 drv HN Hdrv
              n current_led c) as [Hs Hc].
  split; [exact Hs|]. rewrite Hc. nia.
Qed.

Lemma cycle_loop_duration_witness :
  let r := cycle_loop 1000 100 Nrf5340dk.pwm_led0 Nrf5340dk.pwm_led1
                      Nrf5340dk.pwm_led2 Nrf5340dk.pwm_led3
                      Nrf5340dk.working 4 0 4%nat in
  total_sleep (events r) = 9280 /\ Z.of_nat (calls r) = 812.
Proof.
  apply (cycle_loop_duration 1000 100 Nrf5340dk.pwm_led0 Nrf5340dk.pwm_led1
                             Nrf5340dk.pwm_led2 Nrf5340dk.pwm_led3
                             Nrf5340dk.working 4 0 4%nat).
  - unfold config_in_range. lia.
  - intros k spec p pw. vm_compute. discriminate.
Defined.

(** ** The annotated variant against main.c *)

Lemma hardware_events_app (l1 l2 : list event) :
  hardware_events (l1 ++ l2) = hardware_events l1 ++ hardware_events l2.
Proof. unfold hardware_events. apply filter_app. Qed.

Section Variants.

Variables P N : Z.
Variables l0 l1 l2 l3 : pwm_dt_spec.
Variable rdy : device -> bool.
Variable drv : nat -> pwm_dt_spec -> Z -> Z -> Z.

Lemma check_ready_loop_equiv (iters : nat) :
  forall i c,
    hardware_equiv (Annotated.check_ready_loop l0 l1 l2 l3 rdy iters i c)
                   (check_ready_loop l0 l1 l2 l3 rdy iters i c).
Proof.
  induction iters as [|iters IH]; intros i c.
  - repeat split.
  - cbn [Annotated.check_ready_loop check_ready_loop].
    destruct (i <? NUM_LEDS l0 l1 l2 l3); [|repeat split].
    unfold bind, hardware_equiv.
    cbn [device_is_ready printk ret value events calls app].
    destruct (rdy (dev (pwm_leds_at l0 l1 l2 l3 i)));
      cbn [negb value events calls app].
    + destruct (IH (i + 1) c) as (Hv & Hc & He).
      split; [exact Hv|]. split; [exact Hc|].
      unfold hardware_events in *. cbn [filter is_console negb].
      now rewrite He.
    + repeat split.
Qed.

Lemma cycle_body_equiv (current_led : Z) (c : nat) :
  hardware_equiv (Annotated.cycle_body P N l0 l1 l2 l3 drv current_led c)
                 (cycle_body P N l0 l1 l2 l3 drv current_led c).
Proof.
  unfold Annotated.cycle_body, cycle_body, bind, hardware_equiv.
  cbn [printk k_msleep ret value events calls app].
  split; [reflexivity|]. split; [reflexivity|].
  unfold hardware_events. cbn [filter is_console negb]. reflexivity.
Qed.

Lemma cycle_loop_equiv (n : nat) :
  forall current_led c,
    hardware_equiv (Annotated.cycle_loop P N l0 l1 l2 l3 drv n current_led c)
                   (cycle_loop P N l0 l1 l2 l3 drv n current_led c).
Proof.
  induction n as [|n IH]; intros cur c; [repeat split|].
  cbn [Annotated.cycle_loop cycle_loop]. unfold bind.
  destruct (cycle_body_equiv cur c) as (Hv & Hc & He).
  rewrite Hv, Hc.
  destruct (IH (value (cycle_body P N l0 l1 l2 l3 drv cur c))
               (calls (cycle_body P N l0 l1 l2 l3 drv cur c)))
    as (Hv' & Hc' & He').
  unfold hardware_equiv. cbn [value events calls].
  split; [exact Hv'|]. split; [exact Hc'|].
  rewrite !hardware_events_app, He, He'. reflexivity.
Qed.

End Variants.

(** X15.  The annotated copy of the program differs from main.c in its console
    output only: for every configuration, readiness, driver and number of
    passes the two [main] functions return alike, make the same number of
    driver calls and issue the same readiness checks, writes and sleeps in
    the same order. *)
Theorem annotated_main_same_hardware (P N : Z) (l0 l1 l2 l3 : pwm_dt_spec)
    (rdy : device -> bool) (drv : nat -> pwm_dt_spec -> Z -> Z -> Z)
    (n : nat) (c : nat) :
  let r := main P N l0 l1 l2 l3 rdy drv n c in
  let r' := Annotated.main P N l0 l1 l2 l3 rdy drv n c in
  value r' = value r /\
  calls r' = calls r /\
  hardware_events (events r') = hardware_events (events r).
Proof.
  cbv zeta. unfold Annotated.main, main.
  unfold bind. cbn [printk value events calls app].
  destruct (check_ready_loop_equiv l0 l1 l2 l3 rdy
              (Z.to_nat (NUM_LEDS l0 l1 l2 l3)) 0 c) as (Hv & Hc & He).
  rewrite Hv, Hc.
  destruct (value (check_ready_loop l0 l1 l2 l3 rdy
                     (Z.to_nat (NUM_LEDS l0 l1 l2 l3)) 0 c)) as [code|].
  - cbn [ret value events calls].
    split; [reflexivity|]. split; [reflexivity|].
    unfold hardware_events in *. cbn [filter is_console negb].
    rewrite !filter_app, He. reflexivity.
  - cbn [printk ret value events calls app].
    destruct (cycle_loop_equiv P N l0 l1 l2 l3 drv n 0
                (calls (turn_off_all_leds P l0 l1 l2 l3 drv
                          (calls (check_ready_loop l0 l1 l2 l3 rdy
                                    (Z.to_nat (NUM_LEDS l0 l1 l2 l3)) 0 c)))))
      as (Hv' & Hc' & He').
    split; [reflexivity|]. split; [exact Hc'|].
    unfold hardware_events in *. cbn [filter is_console negb].
    rewrite !filter_app. cbn [filter is_console negb].
    rewrite !filter_app, He, He'. reflexivity.
Qed.

(** ** The pace of the loop *)

(** X14.  For a period and a step count representable in the C types and
    whatever the driver answers, one pass of the loop makes between 2 and
    twice [stepCount + 1] driver calls and sleeps at least the 300 ms of hold
    and pause and at most twice [stepCount + 1] step delays more: a driver
    that rejects everything does not turn the loop into a busy loop. *)
Theorem cycle_body_pace (P N : Z) (l0 l1 l2 l3 : pwm_dt_spec)
    (drv : nat -> pwm_dt_spec -> Z -> Z -> Z)
    (current_led : Z) (c : nat) :
  config_in_range P N ->
  let r := cycle_body P N l0 l1 l2 l3 drv current_led c in
  300 <= total_sleep (events r) <= 300 + 2 * (FADE_STEP_MS * (N + 1)) /\
  Z.of_nat c + 2 <= Z.of_nat (calls r) <= Z.of_nat c + 2 * (N + 1).
Proof.
  intros [_ Hrange] r. subst r.
  assert (HN : 0 <= N) by lia.
  rewrite cycle_body_run. cbv zeta.
  cbn [events calls total_sleep].
  rewrite total_sleep_app. cbn [total_sleep].
  rewrite total_sleep_app. cbn [total_sleep].
  set (led := pwm_leds_at l0 l1 l2 l3 current_led).
  pose proof (fade_led_counts P N drv led true c HN) as Hin.
  cbv zeta in Hin. destruct Hin as (Hw & Hc & Ha & Hs).
  pose proof (fade_led_counts P N drv led false
                (calls (fade_led P N drv led true c)) HN) as Hout.
  cbv zeta in Hout. destruct Hout as (Hw' & Hc' & Ha' & Hs').
  rewrite Hs, Hs', Hc'. unfold FADE_STEP_MS. split; lia.
Qed.

Lemma cycle_body_pace_witness :
  let r := cycle_body 1000 100 Nrf5340dk.pwm_led0 Nrf5340dk.pwm_led1
                      Nrf5340dk.pwm_led2 Nrf5340dk.pwm_led3
                      Nrf5340dk.dead 2 9%nat in
  300 <= total_sleep (events r) <= 300 + 2 * (FADE_STEP_MS * (100 + 1)) /\
  Z.of_nat 9 + 2 <= Z.of_nat (calls r) <= Z.of_nat 9 + 2 * (100 + 1).
Proof.
  apply (cycle_body_pace 1000 100 Nrf5340dk.pwm_led0 Nrf5340dk.pwm_led1
                         Nrf5340dk.pwm_led2 Nrf5340dk.pwm_led3
                         Nrf5340dk.dead 2 9%nat).
  unfold config_in_range. lia.
Defined.
